(** * pyrees: Rees style marks for Python programs

    A shallow embedding of [src/pyrees.py] and the properties its
    specification states about it.

    Numbers.  The program computes with Python [int]s and with the
    [float]s that true division [/] returns.  Every number it can produce
    is a ratio of integers, and the embedding computes with exact
    rationals ([Q]); rounding of binary floating point is outside the
    model.  Equality of marks and measures is [Qeq] (written [==]) unless
    a statement says otherwise.

    Errors.  True division raises [ZeroDivisionError] on a zero divisor.
    The embedding keeps that: [truediv] is fallible and every function
    that divides lives in the [result] monad, so that "never raises" is a
    theorem and not a modelling choice.

    Strings.  A Python [str] is a sequence of Unicode code points
    ([pystr]); [splitlines], [strip], [startswith] and [count] are
    embedded with the code points Python treats as line boundaries and as
    white space. *)

From Stdlib Require Import QArith Qabs Lqa Lia ZArith NArith List Bool Ascii String.
From stdpp Require Import gmap.
Import ListNotations.

Open Scope Q_scope.

(** ** Exceptions and the error monad *)

Inductive exn : Type :=
| ZeroDivisionError.

Inductive result (A : Type) : Type :=
| Ok (a : A)
| Raise (e : exn).

Arguments Ok {A} a.
Arguments Raise {A} e.

#[global] Instance result_ret : MRet result := fun A a => Ok a.

#[global] Instance result_bind : MBind result := fun A B k c =>
  match c with
  | Ok a => k a
  | Raise e => Raise e
  end.

(** ** Comparisons and true division on numbers *)

Definition Qlt_bool (x y : Q) : bool :=
  (Qnum x * QDen y <? Qnum y * QDen x)%Z.

Notation "x <? y" := (Qlt_bool x y) : Q_scope.
Notation "x <=? y" := (Qle_bool x y) : Q_scope.
Notation "x >? y" := (Qlt_bool y x) : Q_scope.

(** Python's [a / b]. *)
Definition truediv (a b : Q) : result Q :=
  if Qeq_bool b 0 then Raise ZeroDivisionError else Ok (a / b).

(** ** The conversion curve *)

(** [params]: the tuple [(max_mark, lo, lotol, hitol, hi)]. *)
Definition CurveParams : Type := (Q * Q * Q * Q * Q)%type.

Definition conversion (measure_value : Q) (params : CurveParams) : result Q :=
  let '(max_mark, lo, lotol, hitol, hi) := params in
  if (measure_value <? lo) || (measure_value >? hi) then
    Ok 0
  else if (lotol <=? measure_value) && (measure_value <=? hitol) then
    Ok max_mark
  else if (lo <=? measure_value) && (measure_value <? lotol) then
    truediv (max_mark * (measure_value - lo)) (lotol - lo)
  else if (hitol <? measure_value) && (measure_value <=? hi) then
    truediv (max_mark * (hi - measure_value)) (hi - hitol)
  else
    Ok 0.

(** The arm of the [if]/[elif] chain of [conversion] that runs, in the
    order of the source. *)
Inductive branch : Type :=
| OutsideBounds
| Plateau
| RisingRamp
| FallingRamp
| FinalElse.

Definition conversion_branch (measure_value : Q) (params : CurveParams) : branch :=
  let '(max_mark, lo, lotol, hitol, hi) := params in
  if (measure_value <? lo) || (measure_value >? hi) then
    OutsideBounds
  else if (lotol <=? measure_value) && (measure_value <=? hitol) then
    Plateau
  else if (lo <=? measure_value) && (measure_value <? lotol) then
    RisingRamp
  else if (hitol <? measure_value) && (measure_value <=? hi) then
    FallingRamp
  else
    FinalElse.

(** What each arm returns. *)
Definition branch_result (b : branch) (measure_value : Q) (params : CurveParams) : result Q :=
  let '(max_mark, lo, lotol, hitol, hi) := params in
  match b with
  | OutsideBounds => Ok 0
  | Plateau => Ok max_mark
  | RisingRamp => truediv (max_mark * (measure_value - lo)) (lotol - lo)
  | FallingRamp => truediv (max_mark * (hi - measure_value)) (hi - hitol)
  | FinalElse => Ok 0
  end.

(** The invariant the specification puts on a [CurveParams]. *)
Definition valid_params (params : CurveParams) : Prop :=
  let '(max_mark, lo, lotol, hitol, hi) := params in
  lo <= lotol /\ lotol <= hitol /\ hitol <= hi /\ 0 <= max_mark.

(** The trapezoid of the specification, section 4.1: five regions, tried
    top to bottom, the first that matches wins.  Written from the
    specification's words, as a relation between a value, the parameters
    and the mark. *)
Inductive trapezoid (value : Q) : CurveParams -> Q -> Prop :=
| region_outside max_mark lo lotol hitol hi :
    value < lo \/ hi < value ->
    trapezoid value (max_mark, lo, lotol, hitol, hi) 0
| region_plateau max_mark lo lotol hitol hi :
    ~ (value < lo \/ hi < value) ->
    lotol <= value /\ value <= hitol ->
    trapezoid value (max_mark, lo, lotol, hitol, hi) max_mark
| region_rising max_mark lo lotol hitol hi :
    ~ (value < lo \/ hi < value) ->
    ~ (lotol <= value /\ value <= hitol) ->
    lo <= value /\ value < lotol ->
    trapezoid value (max_mark, lo, lotol, hitol, hi)
      (max_mark * (value - lo) / (lotol - lo))
| region_falling max_mark lo lotol hitol hi :
    ~ (value < lo \/ hi < value) ->
    ~ (lotol <= value /\ value <= hitol) ->
    ~ (lo <= value /\ value < lotol) ->
    hitol < value /\ value <= hi ->
    trapezoid value (max_mark, lo, lotol, hitol, hi)
      (max_mark * (hi - value) / (hi - hitol))
| region_otherwise max_mark lo lotol hitol hi :
    ~ (value < lo \/ hi < value) ->
    ~ (lotol <= value /\ value <= hitol) ->
    ~ (lo <= value /\ value < lotol) ->
    ~ (hitol < value /\ value <= hi) ->
    trapezoid value (max_mark, lo, lotol, hitol, hi) 0.

(** Continuity of a fallible numeric function at a point, in the
    epsilon-delta form: [f] returns a number at [a], and for every
    [eps > 0] there is a [delta > 0] such that [f] returns a number within
    [eps] of it at every point within [delta] of [a]. *)
Definition continuous_at (f : Q -> result Q) (a : Q) : Prop :=
  exists fa, f a = Ok fa /\
  forall eps, 0 < eps ->
  exists delta, 0 < delta /\
  forall v, Qabs (v - a) < delta ->
  exists fv, f v = Ok fv /\ Qabs (fv - fa) < eps.

(** A curve whose rising ramp has no width: [lo = lotol]. *)
Definition no_ramp_params : CurveParams := (10, 5, 5, 10, 15).

(** ** Python strings *)

Close Scope Q_scope.

(** A [str]: its code points, in order. *)
Definition pystr : Type := list N.

(** The code points of an ASCII literal. *)
Definition of_ascii (s : string) : pystr :=
  map N_of_ascii (list_ascii_of_string s).

Definition len {A : Type} (l : list A) : nat := length l.

(** [str.isspace] for one code point: the characters Python's [strip()]
    removes (Unicode category Zs, or bidirectional class WS, B or S). *)
Definition isspace (c : N) : bool :=
  ((9 <=? c) && (c <=? 13) || (28 <=? c) && (c <=? 32)
   || (c =? 133) || (c =? 160) || (c =? 5760)
   || (8192 <=? c) && (c <=? 8202)
   || (c =? 8232) || (c =? 8233) || (c =? 8239) || (c =? 8287)
   || (c =? 12288))%N.

(** A line boundary of [str.splitlines]: LF, VT, FF, CR, FS, GS, RS, NEL,
    LS, PS (CR LF counts as one boundary, see [splitlines_from]). *)
Definition is_linebreak (c : N) : bool :=
  ((10 <=? c) && (c <=? 13) || (28 <=? c) && (c <=? 30)
   || (c =? 133) || (c =? 8232) || (c =? 8233))%N.

(** [splitlines_from cur s]: the lines of [s], where [cur] holds the
    characters of the current line read so far, last one first.  A line
    is emitted at each boundary; what follows the last boundary is a line
    only if it is not empty. *)
Fixpoint splitlines_from (cur : pystr) (s : pystr) : list pystr :=
  match s with
  | [] => match cur with [] => [] | _ :: _ => [rev cur] end
  | c :: rest =>
      if (c =? 13)%N then
        match rest with
        | c' :: rest' =>
            if (c' =? 10)%N then rev cur :: splitlines_from [] rest'
            else rev cur :: splitlines_from [] rest
        | [] => rev cur :: splitlines_from [] rest
        end
      else if is_linebreak c then rev cur :: splitlines_from [] rest
      else splitlines_from (c :: cur) rest
  end.

Definition splitlines (s : pystr) : list pystr := splitlines_from [] s.

Fixpoint lstrip (s : pystr) : pystr :=
  match s with
  | [] => []
  | c :: rest => if isspace c then lstrip rest else s
  end.

Definition rstrip (s : pystr) : pystr := rev (lstrip (rev s)).

Definition strip (s : pystr) : pystr := rstrip (lstrip s).

Fixpoint startswith (s prefix : pystr) : bool :=
  match prefix, s with
  | [], _ => true
  | p :: prefix', c :: s' => (c =? p)%N && startswith s' prefix'
  | _ :: _, [] => false
  end.

(** [s.count(c)] for a one-character argument. *)
Fixpoint count (s : pystr) (c : N) : nat :=
  match s with
  | [] => 0
  | x :: rest => (if (x =? c)%N then 1 else 0) + count rest c
  end.

Definition SPACE : N := 32.
Definition TAB : N := 9.

(** ** Tokens and syntax trees of the analysed program *)

Inductive token_type : Type :=
| ENDMARKER | NAME | NUMBER | STRING | NEWLINE | INDENT | DEDENT
| OP | COMMENT | NL | ENCODING | ERRORTOKEN.

#[global] Instance token_type_eq_dec : EqDecision token_type.
Proof. solve_decision. Defined.

(** The fields of [tokenize.TokenInfo] the analysis reads: [type],
    [string] and [start] (row, column). *)
Record TokenInfo : Type := mkToken {
  tok_type : token_type;
  tok_string : pystr;
  tok_start : nat * nat
}.

(** The node classes the analysis tells apart. *)
Inductive node_class : Type :=
| FunctionDef
| AsyncFunctionDef
| Lambda
| OtherNode.

#[warnings="-register-all"]
Inductive AST : Type :=
| Node (cls : node_class) (children : list AST).

Definition node_cls (node : AST) : node_class :=
  let 'Node cls _ := node in cls.

Definition iter_child_nodes (node : AST) : list AST :=
  let 'Node _ children := node in children.

Fixpoint ast_size (node : AST) : nat :=
  let 'Node _ children := node in
  S (sum_list (map ast_size children)).

Definition forest_size (todo : list AST) : nat :=
  sum_list (map ast_size todo).

(** [ast.walk]: a queue of nodes to visit; the front node is yielded and
    its children join the back of the queue.  [fuel] bounds the number of
    nodes yielded. *)
Fixpoint walk_from (fuel : nat) (todo : list AST) : list AST :=
  match fuel, todo with
  | S fuel', node :: rest =>
      node :: walk_from fuel' (rest ++ iter_child_nodes node)
  | _, _ => []
  end.

Definition walk (tree : AST) : list AST :=
  walk_from (ast_size tree) [tree].

(** [isinstance(node, (ast.FunctionDef, ast.AsyncFunctionDef))] *)
Definition is_function_def (node : AST) : bool :=
  match node_cls node with
  | FunctionDef | AsyncFunctionDef => true
  | Lambda | OtherNode => false
  end.

(** The def and async def statements of a tree, by recursion on the tree:
    what "found anywhere in the syntax tree, nested ones included"
    means. *)
Fixpoint count_defs (node : AST) : nat :=
  let 'Node cls children := node in
  match cls with
  | FunctionDef | AsyncFunctionDef => 1
  | Lambda | OtherNode => 0
  end + sum_list (map count_defs children).

(** All nodes of a tree, a parent before its children. *)
Fixpoint subtree (node : AST) : list AST :=
  let 'Node _ children := node in
  node :: flat_map subtree children.

(** A tree without def and async def statements: every node is a lambda
    or of a class the analysis does not look at. *)
Definition only_lambdas (tree : AST) : Prop :=
  Forall (λ node, node_cls node = Lambda ∨ node_cls node = OtherNode) (subtree tree).

(** ** The Python library the analysis calls

    [tokenize.tokenize], [ast.parse] and [keyword.kwlist] belong to the
    interpreter, not to the program: they are an interface here.  [None]
    stands for a call that raised an [Exception]. *)
Class Python : Type := {
  tokenize : pystr -> option (list TokenInfo);
  parse : pystr -> option AST;
  kwlist : list pystr
}.

(** ** The analysis *)

Open Scope Q_scope.

(** An [int] used as a number. *)
Definition num (n : nat) : Q := inject_Z (Z.of_nat n).

(** The returned dictionary. *)
Record Breakdown : Type := mkBreakdown {
  raw_measures : gmap string Q;
  marks : gmap string Q;
  total_mark : Q
}.

(** The eight keys, in the order of the source. *)
Definition measure_names : list string :=
  ["avg_line_length"; "comment_percentage"; "indent_percentage";
   "blank_percentage"; "embedded_space_percentage"; "module_length";
   "reserved_words_count"; "avg_identifier_length"]%string.

(** A dictionary display with the eight keys. *)
Definition measure_dict (v1 v2 v3 v4 v5 v6 v7 v8 : Q) : gmap string Q :=
  list_to_map (zip measure_names [v1; v2; v3; v4; v5; v6; v7; v8]).

(** The conversion parameters of the eight measures. *)
Definition p1 : CurveParams := (15, 40, 50, 70, 90).
Definition p2 : CurveParams := (10, 5, 10, 20, 30).
Definition p3 : CurveParams := (12, 30, 40, 60, 70).
Definition p4 : CurveParams := (5, 2, 5, 10, 15).
Definition p5 : CurveParams := (8, 5, 7, 12, 15).
Definition p6 : CurveParams := (20, 5, 10, 20, 30).
Definition p7 : CurveParams := (10, 5, 8, 15, 20).
Definition p8 : CurveParams := (20, 5, 7, 15, 20).

Definition max_mark_of (params : CurveParams) : Q :=
  let '(max_mark, _, _, _, _) := params in max_mark.

(** [comment_lines.add(tok.start[0])] for a COMMENT token. *)
Definition add_comment_line (comment_lines : gset nat) (tok : TokenInfo) : gset nat :=
  if decide (tok_type tok = COMMENT) then {[ fst (tok_start tok) ]} ∪ comment_lines
  else comment_lines.

(** [used_reserved_words.add(tok.string)] for a NAME token that is a
    keyword. *)
Definition add_reserved_word (reserved_words_set : gset pystr)
    (used_reserved_words : gset pystr) (tok : TokenInfo) : gset pystr :=
  if decide (tok_type tok = NAME ∧ tok_string tok ∈ reserved_words_set)
  then {[ tok_string tok ]} ∪ used_reserved_words
  else used_reserved_words.

(** The [try] block around [tokenize.tokenize]: the tokens and the set of
    comment lines; both empty when tokenizing raised. *)
Definition tokens_and_comment_lines `{Python} (code : pystr) : list TokenInfo * gset nat :=
  match tokenize code with
  | Some tokens => (tokens, foldl add_comment_line ∅ tokens)
  | None => ([], ∅)
  end.

(** The [try] block around [ast.parse]. *)
Definition count_function_defs `{Python} (code : pystr) : nat :=
  match parse code with
  | Some tree => len (filter (λ node, is_function_def node) (walk tree))
  | None => 0
  end.

Definition analyze_style `{Python} (code : pystr) : result Breakdown :=
  let lines := splitlines code in
  let total_lines := len lines in
  let non_blank_lines := filter (λ line, strip line ≠ []) lines in
  let n_non_blank := len non_blank_lines in
  (* Measure 1 *)
  avg_line_length ←
    (if (0 <? n_non_blank)%nat
     then truediv (num (sum_list (map (λ line, len (strip line)) non_blank_lines)))
                  (num n_non_blank)
     else mret 0);
  let '(tokens, comment_lines) := tokens_and_comment_lines code in
  (* Measure 2 *)
  comment_percentage ←
    (if (0 <? total_lines)%nat
     then q ← truediv (num (size comment_lines)) (num total_lines); mret (q * 100)
     else mret 0);
  (* Measure 3 *)
  let indented_lines :=
    filter (λ line, startswith line [SPACE] || startswith line [TAB]) non_blank_lines in
  indent_percentage ←
    (if (0 <? n_non_blank)%nat
     then q ← truediv (num (len indented_lines)) (num n_non_blank); mret (q * 100)
     else mret 0);
  (* Measure 4 *)
  let blank_lines := filter (λ line, strip line = []) lines in
  blank_percentage ←
    (if (0 <? total_lines)%nat
     then q ← truediv (num (len blank_lines)) (num total_lines); mret (q * 100)
     else mret 0);
  (* Measure 5 *)
  let total_embedded_spaces :=
    sum_list (map (λ line, count (strip line) SPACE) non_blank_lines) in
  let total_chars := sum_list (map (λ line, len (strip line)) non_blank_lines) in
  embedded_space_percentage ←
    (if (0 <? total_chars)%nat
     then q ← truediv (num total_embedded_spaces) (num total_chars); mret (q * 100)
     else mret 0);
  (* Measure 6 *)
  let num_funcs := count_function_defs code in
  let modules := (num_funcs + 1)%nat in
  module_length ←
    (if (0 <? modules)%nat
     then truediv (num n_non_blank) (num modules)
     else mret (num n_non_blank));
  (* Measure 7 *)
  let reserved_words_set : gset pystr := list_to_set kwlist in
  let used_reserved_words := foldl (add_reserved_word reserved_words_set) ∅ tokens in
  let reserved_words_count := num (size used_reserved_words) in
  (* Measure 8 *)
  let identifiers :=
    map tok_string
      (filter (λ tok, tok_type tok = NAME ∧ tok_string tok ∉ reserved_words_set) tokens) in
  avg_identifier_length ←
    (match identifiers with
     | _ :: _ => truediv (num (sum_list (map len identifiers))) (num (len identifiers))
     | [] => mret 0
     end);
  (* Marks *)
  m1 ← conversion avg_line_length p1;
  m2 ← conversion comment_percentage p2;
  m3 ← conversion indent_percentage p3;
  m4 ← conversion blank_percentage p4;
  m5 ← conversion embedded_space_percentage p5;
  m6 ← conversion module_length p6;
  m7 ← conversion reserved_words_count p7;
  m8 ← conversion avg_identifier_length p8;
  let total_mark := m1 + m2 + m3 + m4 + m5 + m6 + m7 + m8 in
  mret {|
    raw_measures :=
      measure_dict avg_line_length comment_percentage indent_percentage
        blank_percentage embedded_space_percentage module_length
        reserved_words_count avg_identifier_length;
    marks := measure_dict m1 m2 m3 m4 m5 m6 m7 m8;
    total_mark := total_mark
  |}.

(** ** The values of one run, named

    [analyze_style] computes its measures in one body.  The definitions
    below name each value it binds, as a function of the text, so that
    statements can speak of them; [analyze_style_breakdown] proves that
    they are what the run returns. *)

Definition ratio (a : Q) (n : nat) : Q :=
  if (0 <? n)%nat then a / num n else 0.

Definition percentage (a n : nat) : Q :=
  if (0 <? n)%nat then num a / num n * 100 else 0.

Definition non_blank_lines_of (code : pystr) : list pystr :=
  filter (λ line, strip line ≠ []) (splitlines code).

Definition avg_line_length_of (code : pystr) : Q :=
  ratio (num (sum_list (map (λ line, len (strip line)) (non_blank_lines_of code))))
        (len (non_blank_lines_of code)).

Definition comment_percentage_of `{Python} (code : pystr) : Q :=
  percentage (size (snd (tokens_and_comment_lines code))) (len (splitlines code)).

Definition indent_percentage_of (code : pystr) : Q :=
  percentage
    (len (filter (λ line, startswith line [SPACE] || startswith line [TAB])
            (non_blank_lines_of code)))
    (len (non_blank_lines_of code)).

Definition blank_percentage_of (code : pystr) : Q :=
  percentage (len (filter (λ line, strip line = []) (splitlines code)))
             (len (splitlines code)).

Definition embedded_space_percentage_of (code : pystr) : Q :=
  percentage
    (sum_list (map (λ line, count (strip line) SPACE) (non_blank_lines_of code)))
    (sum_list (map (λ line, len (strip line)) (non_blank_lines_of code))).

Definition module_length_of `{Python} (code : pystr) : Q :=
  num (len (non_blank_lines_of code)) / num (count_function_defs code + 1).

Definition reserved_words_count_of `{Python} (code : pystr) : Q :=
  num (size (foldl (add_reserved_word (list_to_set kwlist)) ∅
               (fst (tokens_and_comment_lines code)))).

Definition identifiers_of `{Python} (code : pystr) : list pystr :=
  map tok_string
    (filter (λ tok, tok_type tok = NAME ∧ tok_string tok ∉ (list_to_set kwlist : gset pystr))
       (fst (tokens_and_comment_lines code))).

Definition avg_identifier_length_of `{Python} (code : pystr) : Q :=
  match identifiers_of code with
  | _ :: _ => num (sum_list (map len (identifiers_of code))) / num (len (identifiers_of code))
  | [] => 0
  end.

(** The mark [conversion] returns ([conversion_total]: it always returns
    one). *)
Definition mark_of (measure_value : Q) (params : CurveParams) : Q :=
  match conversion measure_value params with
  | Ok mark => mark
  | Raise _ => 0
  end.

Definition breakdown_of `{Python} (code : pystr) : Breakdown :=
  let m1 := mark_of (avg_line_length_of code) p1 in
  let m2 := mark_of (comment_percentage_of code) p2 in
  let m3 := mark_of (indent_percentage_of code) p3 in
  let m4 := mark_of (blank_percentage_of code) p4 in
  let m5 := mark_of (embedded_space_percentage_of code) p5 in
  let m6 := mark_of (module_length_of code) p6 in
  let m7 := mark_of (reserved_words_count_of code) p7 in
  let m8 := mark_of (avg_identifier_length_of code) p8 in
  {| raw_measures :=
       measure_dict (avg_line_length_of code) (comment_percentage_of code)
         (indent_percentage_of code) (blank_percentage_of code)
         (embedded_space_percentage_of code) (module_length_of code)
         (reserved_words_count_of code) (avg_identifier_length_of code);
     marks := measure_dict m1 m2 m3 m4 m5 m6 m7 m8;
     total_mark := m1 + m2 + m3 + m4 + m5 + m6 + m7 + m8 |}.

(** [mark] is the mark of the measure [name] in the report: the entry of
    [marks], and what [conversion] returns on the entry of [raw_measures]
    with the parameters of that measure. *)
Definition computed_mark (b : Breakdown) (name : string) (params : CurveParams)
    (mark : Q) : Prop :=
  marks b !! name = Some mark ∧
  ∃ value, raw_measures b !! name = Some value ∧ conversion value params = Ok mark.

(** The four measures that are percentages. *)
Definition percentage_names : list string :=
  ["comment_percentage"; "indent_percentage"; "blank_percentage";
   "embedded_space_percentage"]%string.

(** The four measures computed from the lines alone. *)
Definition line_based_names : list string :=
  ["avg_line_length"; "indent_percentage"; "blank_percentage";
   "embedded_space_percentage"]%string.

(** ** What the statements assume of the tokenizer *)

(** A COMMENT token starts on a line of the text: its row is between 1
    and the number of lines. *)
Definition comment_rows_in_text `{Python} (code : pystr) : Prop :=
  ∀ tokens tok,
    tokenize code = Some tokens → tok ∈ tokens → tok_type tok = COMMENT →
    (1 ≤ fst (tok_start tok) ≤ len (splitlines code))%nat.

(** The tokens of the text hold no NAME. *)
Definition no_name_tokens `{Python} (code : pystr) : Prop :=
  ∀ tokens, tokenize code = Some tokens → Forall (λ tok, tok_type tok ≠ NAME) tokens.

(** ** A small interpreter for the examples

    The tokens and, class by class, the tree that CPython's [tokenize] and
    [ast.parse] give for three texts; every other text is taken to be
    malformed. *)

Definition LF : N := 10.

Definition text_assign : pystr := of_ascii "x = 1" ++ [LF].

Definition text_lambda : pystr :=
  of_ascii "# twice" ++ [LF] ++ of_ascii "f = lambda n: n + n" ++ [LF].

Definition text_unclosed : pystr := of_ascii "print(" ++ [LF].

Definition tok (type : token_type) (s : string) (row col : nat) : TokenInfo :=
  mkToken type (of_ascii s) (row, col).

Definition example_tokenize (code : pystr) : option (list TokenInfo) :=
  if decide (code = []) then
    Some [tok ENCODING "utf-8" 0 0; tok ENDMARKER "" 1 0]
  else if decide (code = text_assign) then
    Some [tok ENCODING "utf-8" 0 0; tok NAME "x" 1 0; tok OP "=" 1 2;
          tok NUMBER "1" 1 4; mkToken NEWLINE [LF] (1, 5)%nat; tok ENDMARKER "" 2 0]
  else if decide (code = text_lambda) then
    Some [tok ENCODING "utf-8" 0 0; tok COMMENT "# twice" 1 0; mkToken NL [LF] (1, 7)%nat;
          tok NAME "f" 2 0; tok OP "=" 2 2; tok NAME "lambda" 2 4; tok NAME "n" 2 11;
          tok OP ":" 2 12; tok NAME "n" 2 14; tok OP "+" 2 16; tok NAME "n" 2 18;
          mkToken NEWLINE [LF] (2, 19)%nat; tok ENDMARKER "" 3 0]
  else None.

Definition leaf : AST := Node OtherNode [].

(** The tree of [text_lambda]. *)
Definition tree_lambda : AST :=
  Node OtherNode
    [Node OtherNode
       [Node OtherNode [leaf];
        Node Lambda
          [Node OtherNode [leaf];
           Node OtherNode [Node OtherNode [leaf]; leaf; Node OtherNode [leaf]]]]].

Definition example_parse (code : pystr) : option AST :=
  if decide (code = []) then
    (* Module *)
    Some (Node OtherNode [])
  else if decide (code = text_assign) then
    (* Module [Assign [Name [Store]; Constant]] *)
    Some (Node OtherNode [Node OtherNode [Node OtherNode [leaf]; leaf]])
  else if decide (code = text_lambda) then
    (* Module [Assign [Name [Store];
                       Lambda [arguments [arg]; BinOp [Name [Load]; Add; Name [Load]]]]] *)
    Some tree_lambda
  else None.

Definition example_kwlist : list pystr :=
  map of_ascii
    ["False"; "None"; "True"; "and"; "as"; "assert"; "async"; "await";
     "break"; "class"; "continue"; "def"; "del"; "elif"; "else"; "except";
     "finally"; "for"; "from"; "global"; "if"; "import"; "in"; "is";
     "lambda"; "nonlocal"; "not"; "or"; "pass"; "raise"; "return"; "try";
     "while"; "with"; "yield"]%string.

Definition example_python : Python :=
  {| tokenize := example_tokenize; parse := example_parse; kwlist := example_kwlist |}.

(** The same interpreter with a tokenizer that never fails and never
    finds a token. *)
Definition tokenless_python : Python :=
  {| tokenize := λ _, Some []; parse := example_parse; kwlist := example_kwlist |}.

(** The same interpreter with its keywords listed in the opposite order. *)
Definition reordered_python : Python :=
  {| tokenize := example_tokenize; parse := example_parse;
     kwlist := rev example_kwlist |}.

(** ** Further notions used by the statements *)

(** The parameters of each measure, by name. *)
Definition params_table : list (string * CurveParams) :=
  zip measure_names [p1; p2; p3; p4; p5; p6; p7; p8].

(** The value lies on the plateau of the curve. *)
Definition in_plateau (params : CurveParams) (value : Q) : Prop :=
  let '(_, _, lotol, hitol, _) := params in lotol <= value /\ value <= hitol.

Definition CR : N := 13.

(** The text with every line feed turned into carriage return, line feed. *)
Fixpoint crlf (s : pystr) : pystr :=
  match s with
  | [] => []
  | c :: rest => if (c =? LF)%N then CR :: LF :: crlf rest else c :: crlf rest
  end.

(** The rows on which a COMMENT token starts. *)
Definition comment_rows (tokens : list TokenInfo) : gset nat :=
  list_to_set (map (λ tok, fst (tok_start tok))
                 (filter (λ tok, tok_type tok = COMMENT) tokens)).

(** The keywords among the NAME tokens. *)
Definition keywords_used (kw : list pystr) (tokens : list TokenInfo) : gset pystr :=
  list_to_set (filter (λ s, s ∈ kw)
                 (map tok_string (filter (λ tok, tok_type tok = NAME) tokens))).

(** The example interpreter with a parser that fails on every text. *)
Definition parserless_python : Python :=
  {| tokenize := example_tokenize; parse := λ _, None; kwlist := example_kwlist |}.

(** ** Facts about comparisons and division *)

Lemma Qlt_bool_iff (x y : Q) : (x <? y) = true <-> x < y.
Proof. unfold Qlt_bool, Qlt. apply Z.ltb_lt. Qed.

Lemma Qlt_bool_false (x y : Q) : (x <? y) = false <-> y <= x.
Proof.
  unfold Qlt_bool, Qle. rewrite Z.ltb_ge. reflexivity.
Qed.

Lemma Qle_bool_false (x y : Q) : (x <=? y) = false <-> y < x.
Proof.
  split; intros H.
  - apply Qnot_le_lt. intros Hle. apply Qle_bool_iff in Hle. congruence.
  - destruct (Qle_bool x y) eqn:E; [|reflexivity].
    apply Qle_bool_iff in E. exfalso. apply (Qlt_not_le _ _ H E).
Qed.

Lemma truediv_nonzero (a b : Q) : ~ b == 0 -> truediv a b = Ok (a / b).
Proof.
  intros Hb. unfold truediv. destruct (Qeq_bool b 0) eqn:E; [|reflexivity].
  apply Qeq_bool_iff in E. contradiction.
Qed.

(** Turn the boolean tests of a goal or hypothesis into order facts. *)
Ltac qtests :=
  repeat match goal with
  | H : (_ || _) = true |- _ => apply orb_true_iff in H; destruct H
  | H : (_ || _) = false |- _ => apply orb_false_iff in H; destruct H
  | H : (_ && _) = true |- _ => apply andb_true_iff in H; destruct H
  | H : (_ && _) = false |- _ => apply andb_false_iff in H; destruct H
  | H : (_ <? _) = true |- _ => apply Qlt_bool_iff in H
  | H : (_ <? _) = false |- _ => apply Qlt_bool_false in H
  | H : (_ <=? _) = true |- _ => apply Qle_bool_iff in H
  | H : (_ <=? _) = false |- _ => apply Qle_bool_false in H
  end.

(** [conversion] is its branch selector followed by the arm's result. *)
Lemma conversion_by_branch (v : Q) (p : CurveParams) :
  conversion v p = branch_result (conversion_branch v p) v p.
Proof.
  destruct p as [[[[max_mark lo] lotol] hitol] hi].
  unfold conversion, conversion_branch, branch_result.
  repeat match goal with |- context [if ?c then _ else _] => destruct c end;
    reflexivity.
Qed.

(** ** The conversion curve: which arm runs, and what it returns *)

(** Split on every test of the [if]/[elif] chain, left to right. *)
Ltac chain_cases :=
  repeat match goal with
  | |- context [if ?c then _ else _] =>
      let E := fresh "E" in destruct c eqn:E
  end.

Section Arms.
Variables max_mark lo lotol hitol hi v : Q.

Let params : CurveParams := (max_mark, lo, lotol, hitol, hi).

Lemma conversion_outside :
  v < lo \/ hi < v -> conversion v params = Ok 0.
Proof.
  intros Hout. unfold conversion, params.
  destruct ((v <? lo) || (v >? hi)) eqn:E; [reflexivity|].
  qtests. exfalso. lra.
Qed.

Lemma conversion_plateau :
  lo <= v <= hi -> lotol <= v <= hitol -> conversion v params = Ok max_mark.
Proof.
  intros Hin Hpl. unfold conversion, params.
  chain_cases; qtests; try reflexivity; exfalso; lra.
Qed.

Lemma conversion_rising :
  lo <= v <= hi -> ~ (lotol <= v <= hitol) -> v < lotol ->
  conversion v params = Ok (max_mark * (v - lo) / (lotol - lo)).
Proof.
  intros Hin Hnp Hlt. unfold conversion, params.
  chain_cases; qtests; try (exfalso; lra); apply truediv_nonzero; lra.
Qed.

Lemma conversion_falling :
  lo <= v <= hi -> ~ (lotol <= v <= hitol) -> lotol <= v ->
  conversion v params = Ok (max_mark * (hi - v) / (hi - hitol)).
Proof.
  intros Hin Hnp Hge. unfold conversion, params.
  chain_cases; qtests; try (exfalso; lra); apply truediv_nonzero; lra.
Qed.

(** The five outcomes of the selector, as order facts. *)
Lemma conversion_branch_spec :
  match conversion_branch v params with
  | OutsideBounds => v < lo \/ hi < v
  | Plateau => lo <= v <= hi /\ lotol <= v <= hitol
  | RisingRamp => lo <= v <= hi /\ ~ (lotol <= v <= hitol) /\ v < lotol
  | FallingRamp =>
      lo <= v <= hi /\ ~ (lotol <= v <= hitol) /\ lotol <= v /\ hitol < v
  | FinalElse => False
  end.
Proof.
  unfold conversion_branch, params.
  chain_cases; qtests; lra.
Qed.
End Arms.

(** [conversion] returns a mark for every value and every parameter
    tuple: the tests that guard the two divisions make the divisors
    nonzero. *)
Lemma conversion_total (v : Q) (p : CurveParams) :
  exists mark, conversion v p = Ok mark.
Proof.
  destruct p as [[[[max_mark lo] lotol] hitol] hi].
  pose proof (conversion_branch_spec max_mark lo lotol hitol hi v) as Hb.
  rewrite conversion_by_branch.
  destruct (conversion_branch v (max_mark, lo, lotol, hitol, hi));
    simpl; try (eexists; reflexivity).
  - rewrite truediv_nonzero by lra. eexists; reflexivity.
  - rewrite truediv_nonzero by lra. eexists; reflexivity.
Qed.

Lemma conversion_trapezoid (v : Q) (p : CurveParams) (mark : Q) :
  conversion v p = Ok mark <-> trapezoid v p mark.
Proof.
  split.
  - destruct p as [[[[max_mark lo] lotol] hitol] hi].
    unfold conversion. chain_cases; intros Hc.
    + injection Hc as <-. apply region_outside; qtests; lra.
    + injection Hc as <-. apply region_plateau; qtests; lra.
    + unfold truediv in Hc. destruct (Qeq_bool (lotol - lo) 0); [discriminate|].
      injection Hc as <-. apply region_rising; qtests; lra.
    + unfold truediv in Hc. destruct (Qeq_bool (hi - hitol) 0); [discriminate|].
      injection Hc as <-. apply region_falling; qtests; lra.
    + injection Hc as <-. apply region_otherwise; qtests; lra.
  - intros Ht. destruct Ht.
    + apply conversion_outside; assumption.
    + apply conversion_plateau; lra.
    + apply conversion_rising; lra.
    + apply conversion_falling; lra.
    + exfalso. lra.
Qed.

(** A mark lies between 0 and the maximum mark of its curve. *)
Lemma ramp_bounds (m x d : Q) :
  0 <= m -> 0 <= x -> x <= d -> 0 < d -> 0 <= m * x / d /\ m * x / d <= m.
Proof.
  intros Hm Hx Hxd Hd. split.
  - apply Qle_shift_div_l; [assumption|]. nra.
  - apply Qle_shift_div_r; [assumption|]. nra.
Qed.

Lemma conversion_bounds (v : Q) (p : CurveParams) :
  valid_params p ->
  exists mark, conversion v p = Ok mark /\ 0 <= mark /\ mark <= max_mark_of p.
Proof.
  destruct p as [[[[max_mark lo] lotol] hitol] hi].
  intros (H1 & H2 & H3 & H4).
  pose proof (conversion_branch_spec max_mark lo lotol hitol hi v) as Hb.
  rewrite conversion_by_branch.
  destruct (conversion_branch v (max_mark, lo, lotol, hitol, hi)); simpl.
  - exists 0. repeat split; lra.
  - exists max_mark. repeat split; lra.
  - rewrite truediv_nonzero by lra. eexists. split; [reflexivity|].
    apply ramp_bounds; lra.
  - rewrite truediv_nonzero by lra. eexists. split; [reflexivity|].
    apply ramp_bounds; lra.
  - contradiction.
Qed.

(** C1.  For every value and every parameter tuple, [conversion] returns
    a mark, and that mark is the one the five-region trapezoid of the
    specification gives when its regions are tried in order: 0 outside
    [lo, hi], [max_mark] on the plateau, the rising ramp
    [max_mark * (value - lo) / (lotol - lo)], the falling ramp
    [max_mark * (hi - value) / (hi - hitol)], and 0 otherwise. *)
Theorem C1_conversion_is_trapezoid (value : Q) (params : CurveParams) :
  (exists mark, conversion value params = Ok mark) /\
  (forall mark, conversion value params = Ok mark <-> trapezoid value params mark).
Proof.
  split.
  - apply conversion_total.
  - intros mark. apply conversion_trapezoid.
Qed.



(** ** Continuity of the curve *)

Section Pieces.
Variables max_mark lo lotol hitol hi : Q.
Hypothesis rising_width : lo < lotol.
Hypothesis plateau_width : lotol <= hitol.
Hypothesis falling_width : hitol < hi.

Let params : CurveParams := (max_mark, lo, lotol, hitol, hi).

(** On each of the five closed pieces of the line the mark has a closed
    form; neighbouring pieces overlap in a breakpoint and agree there. *)
Lemma conversion_pieces (v mark : Q) :
  conversion v params = Ok mark ->
  (v <= lo -> mark == 0) /\
  (lo <= v <= lotol -> mark * (lotol - lo) == max_mark * (v - lo)) /\
  (lotol <= v <= hitol -> mark == max_mark) /\
  (hitol <= v <= hi -> mark * (hi - hitol) == max_mark * (hi - v)) /\
  (hi <= v -> mark == 0).
Proof using rising_width plateau_width falling_width.
  pose proof (conversion_branch_spec max_mark lo lotol hitol hi v) as Hb.
  rewrite conversion_by_branch. fold params in Hb.
  destruct (conversion_branch v params); unfold params; simpl; intros Hm.
  - injection Hm as <-. repeat split; intros; try reflexivity; exfalso; lra.
  - injection Hm as <-. repeat split; intros; try reflexivity; try (exfalso; lra).
    + assert (E : v == lotol) by lra. rewrite E. reflexivity.
    + assert (E : v == hitol) by lra. rewrite E. reflexivity.
  - rewrite truediv_nonzero in Hm by lra. injection Hm as <-.
    assert (Hd : (max_mark * (v - lo) / (lotol - lo)) * (lotol - lo)
                 == max_mark * (v - lo)).
    { rewrite Qmult_comm. apply Qmult_div_r. lra. }
    repeat split; intros; try assumption; try (exfalso; lra).
    assert (E : v == lo) by lra. rewrite E. unfold Qminus at 1.
    rewrite Qplus_opp_r. rewrite Qmult_0_r. reflexivity.
  - rewrite truediv_nonzero in Hm by lra. injection Hm as <-.
    assert (Hd : (max_mark * (hi - v) / (hi - hitol)) * (hi - hitol)
                 == max_mark * (hi - v)).
    { rewrite Qmult_comm. apply Qmult_div_r. lra. }
    repeat split; intros; try assumption; try (exfalso; lra).
    assert (E : v == hi) by lra. rewrite E. unfold Qminus at 1.
    rewrite Qplus_opp_r. rewrite Qmult_0_r. reflexivity.
  - contradiction.
Qed.
End Pieces.

(** Two marks on one ramp of width [d] are close when their values are. *)
Lemma ramp_close (m d eps delta x mv ma : Q) :
  0 <= m -> 0 < d -> 0 < eps -> 0 < delta ->
  delta * (m + 1) <= eps * d ->
  - delta < x < delta ->
  (mv - ma) * d == m * x ->
  Qabs (mv - ma) < eps.
Proof.
  intros Hm Hd He Hdl Hle Hx Heq. apply Qabs_Qlt_condition. split.
  - apply (Qmult_lt_r _ _ d Hd). rewrite Heq. nra.
  - apply (Qmult_lt_r _ _ d Hd). rewrite Heq. nra.
Qed.

Lemma flat_close (eps mv ma c : Q) :
  0 < eps -> mv == c -> ma == c -> Qabs (mv - ma) < eps.
Proof.
  intros He Hv Ha. apply Qabs_Qlt_condition. split; lra.
Qed.

Lemma below_both (a b : Q) :
  0 < a -> 0 < b -> exists delta, 0 < delta /\ delta <= a /\ delta <= b.
Proof.
  intros Ha Hb. destruct (Qlt_le_dec a b).
  - exists a. repeat split; lra.
  - exists b. repeat split; lra.
Qed.

(** A radius that fits inside a ramp of width [d] and keeps marks on it
    within [eps]. *)
Lemma ramp_radius (m d eps : Q) :
  0 <= m -> 0 < d -> 0 < eps ->
  exists delta, 0 < delta /\ delta <= d /\ delta * (m + 1) <= eps * d.
Proof.
  intros Hm Hd He.
  assert (Hpos : 0 < eps * d / (m + 1)).
  { apply Qlt_shift_div_l; [lra|]. nra. }
  destruct (below_both d (eps * d / (m + 1)) Hd Hpos) as (delta & H0 & H1 & H2).
  exists delta. repeat split; try assumption.
  apply (Qmult_le_compat_r _ _ (m + 1)) in H2; [|lra].
  assert (E : eps * d / (m + 1) * (m + 1) == eps * d).
  { rewrite Qmult_comm. apply Qmult_div_r. lra. }
  rewrite E in H2. exact H2.
Qed.

Section Continuity.
Variables max_mark lo lotol hitol hi : Q.
Hypothesis rising_width : lo < lotol.
Hypothesis plateau_width : lotol <= hitol.
Hypothesis falling_width : hitol < hi.
Hypothesis max_mark_nonneg : 0 <= max_mark.

Let params : CurveParams := (max_mark, lo, lotol, hitol, hi).

(** One radius for the four breakpoints: it fits inside each ramp,
    inside the plateau when the plateau has a width, and keeps the
    marks on a ramp within [eps]. *)
Lemma breakpoint_radius (eps : Q) :
  0 < eps ->
  exists delta,
    0 < delta /\ delta <= lotol - lo /\ delta <= hi - hitol /\
    (lotol < hitol -> delta <= hitol - lotol) /\
    delta * (max_mark + 1) <= eps * (lotol - lo) /\
    delta * (max_mark + 1) <= eps * (hi - hitol).
Proof using rising_width falling_width max_mark_nonneg.
  intros He.
  destruct (ramp_radius max_mark (lotol - lo) eps) as (r1 & R1 & R1' & R1'');
    [lra | lra | lra |].
  destruct (ramp_radius max_mark (hi - hitol) eps) as (r2 & R2 & R2' & R2'');
    [lra | lra | lra |].
  destruct (below_both r1 r2 R1 R2) as (r & R & Rr1 & Rr2).
  assert (Hg : exists g, 0 < g /\ (lotol < hitol -> g <= hitol - lotol)).
  { destruct (Qlt_le_dec lotol hitol).
    - exists (hitol - lotol). split; [lra|]. intros _. lra.
    - exists 1. split; [lra|]. intros. exfalso. lra. }
  destruct Hg as (g & G & G').
  destruct (below_both r g R G) as (delta & D & Dr & Dg).
  exists delta.
  split; [lra|]. split; [lra|]. split; [lra|].
  split; [intros Hlt; specialize (G' Hlt); lra|].
  split; nra.
Qed.

Lemma continuous_at_lo : continuous_at (fun v => conversion v params) lo.
Proof using rising_width plateau_width falling_width max_mark_nonneg.
  destruct (conversion_total lo params) as [fa Hfa].
  exists fa. split; [exact Hfa|]. intros eps He.
  destruct (breakpoint_radius eps He) as (delta & D & D1 & D2 & Dg & E1 & E2).
  exists delta. split; [exact D|]. intros v Hv.
  destruct (conversion_total v params) as [fv Hfv].
  exists fv. split; [exact Hfv|].
  apply Qabs_diff_Qlt_condition in Hv.
  apply conversion_pieces in Hfa as (A1 & A2 & A3 & A4 & A5); try assumption.
  apply conversion_pieces in Hfv as (V1 & V2 & V3 & V4 & V5); try assumption.
  destruct (Qlt_le_dec lo v) as [Hgt | Hle].
  - apply (ramp_close max_mark (lotol - lo) eps delta (v - lo));
      lra.
  - apply (flat_close eps fv fa 0 He); [apply V1 | apply A1]; lra.
Qed.

Lemma continuous_at_lotol : continuous_at (fun v => conversion v params) lotol.
Proof using rising_width plateau_width falling_width max_mark_nonneg.
  destruct (conversion_total lotol params) as [fa Hfa].
  exists fa. split; [exact Hfa|]. intros eps He.
  destruct (breakpoint_radius eps He) as (delta & D & D1 & D2 & Dg & E1 & E2).
  exists delta. split; [exact D|]. intros v Hv.
  destruct (conversion_total v params) as [fv Hfv].
  exists fv. split; [exact Hfv|].
  apply Qabs_diff_Qlt_condition in Hv.
  apply conversion_pieces in Hfa as (A1 & A2 & A3 & A4 & A5); try assumption.
  apply conversion_pieces in Hfv as (V1 & V2 & V3 & V4 & V5); try assumption.
  destruct (Qlt_le_dec v lotol) as [Hlt | Hge].
  - apply (ramp_close max_mark (lotol - lo) eps delta (v - lotol));
      lra.
  - destruct (Qlt_le_dec lotol hitol) as [Hw | Hnw].
    + specialize (Dg Hw).
      apply (flat_close eps fv fa max_mark He); [apply V3 | apply A3]; lra.
    + apply (ramp_close max_mark (hi - hitol) eps delta (lotol - v));
      lra.
Qed.

Lemma continuous_at_hitol : continuous_at (fun v => conversion v params) hitol.
Proof using rising_width plateau_width falling_width max_mark_nonneg.
  destruct (conversion_total hitol params) as [fa Hfa].
  exists fa. split; [exact Hfa|]. intros eps He.
  destruct (breakpoint_radius eps He) as (delta & D & D1 & D2 & Dg & E1 & E2).
  exists delta. split; [exact D|]. intros v Hv.
  destruct (conversion_total v params) as [fv Hfv].
  exists fv. split; [exact Hfv|].
  apply Qabs_diff_Qlt_condition in Hv.
  apply conversion_pieces in Hfa as (A1 & A2 & A3 & A4 & A5); try assumption.
  apply conversion_pieces in Hfv as (V1 & V2 & V3 & V4 & V5); try assumption.
  destruct (Qlt_le_dec hitol v) as [Hgt | Hle].
  - apply (ramp_close max_mark (hi - hitol) eps delta (hitol - v));
      lra.
  - destruct (Qlt_le_dec lotol hitol) as [Hw | Hnw].
    + specialize (Dg Hw).
      apply (flat_close eps fv fa max_mark He); [apply V3 | apply A3]; lra.
    + apply (ramp_close max_mark (lotol - lo) eps delta (v - hitol));
      lra.
Qed.

Lemma continuous_at_hi : continuous_at (fun v => conversion v params) hi.
Proof using rising_width plateau_width falling_width max_mark_nonneg.
  destruct (conversion_total hi params) as [fa Hfa].
  exists fa. split; [exact Hfa|]. intros eps He.
  destruct (breakpoint_radius eps He) as (delta & D & D1 & D2 & Dg & E1 & E2).
  exists delta. split; [exact D|]. intros v Hv.
  destruct (conversion_total v params) as [fv Hfv].
  exists fv. split; [exact Hfv|].
  apply Qabs_diff_Qlt_condition in Hv.
  apply conversion_pieces in Hfa as (A1 & A2 & A3 & A4 & A5); try assumption.
  apply conversion_pieces in Hfv as (V1 & V2 & V3 & V4 & V5); try assumption.
  destruct (Qlt_le_dec v hi) as [Hlt | Hge].
  - apply (ramp_close max_mark (hi - hitol) eps delta (hi - v));
      lra.
  - apply (flat_close eps fv fa 0 He); [apply V5 | apply A5]; lra.
Qed.
End Continuity.

(** The curve with [lo = lotol] jumps from 0 to [max_mark] at [lo]. *)
Lemma no_ramp_jump :
  ~ continuous_at (fun v => conversion v no_ramp_params) 5.
Proof.
  intros (fa & Hfa & Hc).
  vm_compute in Hfa. injection Hfa as <-.
  destruct (Hc 1 ltac:(lra)) as (delta & D & Hd).
  destruct (Hd (5 - delta / 2)) as (fv & Hfv & Hclose).
  - apply Qabs_Qlt_condition. split; [|].
    + assert (delta / 2 < delta) by (apply Qlt_shift_div_r; lra). lra.
    + assert (0 < delta / 2) by (apply Qlt_shift_div_l; lra). lra.
  - assert (Hz : conversion (5 - delta / 2) no_ramp_params = Ok 0).
    { apply conversion_outside. left.
      assert (0 < delta / 2) by (apply Qlt_shift_div_l; lra). lra. }
    rewrite Hz in Hfv. injection Hfv as <-.
    apply Qabs_Qlt_condition in Hclose. lra.
Qed.

(** C5, as the specification states it, fails: the invariant allows
    [lo = lotol], and then the mark jumps from 0 to [max_mark] at [lo]. *)
Lemma C5_jump_at_lo_without_ramp :
  valid_params no_ramp_params /\
  ~ continuous_at (fun v => conversion v no_ramp_params) 5.
Proof.
  split.
  - unfold valid_params, no_ramp_params. lra.
  - apply no_ramp_jump.
Qed.

(** C5, amended.  When both ramps have a width, [lo < lotol <= hitol < hi],
    and [max_mark >= 0], the function [value -> conversion(value, params)]
    is continuous at each of the four breakpoints [lo], [lotol], [hitol]
    and [hi]. *)
Theorem C5_continuous_at_breakpoints (max_mark lo lotol hitol hi : Q) :
  lo < lotol -> lotol <= hitol -> hitol < hi -> 0 <= max_mark ->
  continuous_at (fun v => conversion v (max_mark, lo, lotol, hitol, hi)) lo /\
  continuous_at (fun v => conversion v (max_mark, lo, lotol, hitol, hi)) lotol /\
  continuous_at (fun v => conversion v (max_mark, lo, lotol, hitol, hi)) hitol /\
  continuous_at (fun v => conversion v (max_mark, lo, lotol, hitol, hi)) hi.
Proof.
  intros H1 H2 H3 H4.
  split; [apply continuous_at_lo; assumption|].
  split; [apply continuous_at_lotol; assumption|].
  split; [apply continuous_at_hitol; assumption|].
  apply continuous_at_hi; assumption.
Qed.

(** ** The analysis returns the named values *)

Lemma bind_ok {A B : Type} (c : result A) (a : A) (k : A → result B) :
  c = Ok a → (x ← c; k x) = k a.
Proof. intros ->. reflexivity. Qed.

Lemma num_nonneg (n : nat) : 0 <= num n.
Proof. unfold num, Qle. simpl. lia. Qed.

Lemma num_pos (n : nat) : (0 < n)%nat → 0 < num n.
Proof. intros Hn. unfold num, Qlt. simpl. lia. Qed.

Lemma num_le (a b : nat) : (a ≤ b)%nat → num a <= num b.
Proof. intros Hab. unfold num, Qle. simpl. lia. Qed.

Lemma guarded_ratio (a : Q) (n : nat) :
  (if (0 <? n)%nat then truediv a (num n) else mret 0) = Ok (ratio a n).
Proof.
  unfold ratio. destruct (0 <? n)%nat eqn:E; [|reflexivity].
  apply Nat.ltb_lt in E. apply truediv_nonzero.
  pose proof (num_pos n E). lra.
Qed.

Lemma guarded_percentage (a n : nat) :
  (if (0 <? n)%nat then q ← truediv (num a) (num n); mret (q * 100) else mret 0)
  = Ok (percentage a n).
Proof.
  unfold percentage. destruct (0 <? n)%nat eqn:E; [|reflexivity].
  apply Nat.ltb_lt in E. rewrite truediv_nonzero; [reflexivity|].
  pose proof (num_pos n E). lra.
Qed.

Lemma conversion_mark_of (v : Q) (p : CurveParams) :
  conversion v p = Ok (mark_of v p).
Proof.
  unfold mark_of. destruct (conversion_total v p) as [m ->]. reflexivity.
Qed.

Section Run.
Context `{Python}.

Lemma analyze_style_breakdown (code : pystr) :
  analyze_style code = Ok (breakdown_of code).
Proof.
  unfold analyze_style, breakdown_of.
  unfold avg_line_length_of, comment_percentage_of, indent_percentage_of,
    blank_percentage_of, embedded_space_percentage_of, module_length_of,
    reserved_words_count_of, avg_identifier_length_of, identifiers_of,
    non_blank_lines_of.
  destruct (tokens_and_comment_lines code) as [tokens comment_lines].
  cbn [fst snd].
  rewrite guarded_ratio. cbn [mbind result_bind].
  rewrite !guarded_percentage. cbn [mbind result_bind].
  assert (Hmod : (0 <? count_function_defs code + 1)%nat = true)
    by (apply Nat.ltb_lt; lia).
  rewrite Hmod.
  rewrite (truediv_nonzero _ (num (count_function_defs code + 1)))
    by (pose proof (num_pos (count_function_defs code + 1) ltac:(lia)); lra).
  cbn [mbind result_bind].
  set (identifiers := map tok_string _).
  assert (Hids :
    match identifiers with
    | [] => mret 0
    | _ :: _ => truediv (num (sum_list (map len identifiers))) (num (len identifiers))
    end
    = Ok match identifiers with
         | _ :: _ => num (sum_list (map len identifiers)) / num (len identifiers)
         | [] => 0
         end).
  { destruct identifiers as [|name names]; [reflexivity|].
    apply truediv_nonzero.
    pose proof (num_pos (len (name :: names)) ltac:(simpl; lia)). lra. }
  rewrite Hids. cbn [mbind result_bind].
  rewrite !conversion_mark_of. cbn [mbind result_bind].
  reflexivity.
Qed.
End Run.

(** ** The dictionary display *)

Lemma measure_dict_lookup (v1 v2 v3 v4 v5 v6 v7 v8 : Q) :
  let d := measure_dict v1 v2 v3 v4 v5 v6 v7 v8 in
  d !! "avg_line_length"%string = Some v1 ∧
  d !! "comment_percentage"%string = Some v2 ∧
  d !! "indent_percentage"%string = Some v3 ∧
  d !! "blank_percentage"%string = Some v4 ∧
  d !! "embedded_space_percentage"%string = Some v5 ∧
  d !! "module_length"%string = Some v6 ∧
  d !! "reserved_words_count"%string = Some v7 ∧
  d !! "avg_identifier_length"%string = Some v8.
Proof. repeat split; reflexivity. Qed.

Lemma measure_dict_dom (v1 v2 v3 v4 v5 v6 v7 v8 : Q) :
  dom (measure_dict v1 v2 v3 v4 v5 v6 v7 v8) = list_to_set measure_names.
Proof.
  unfold measure_dict. rewrite dom_list_to_map_L. f_equal.
Qed.

(** ** Ranges of the raw measures *)

Lemma ratio_nonneg (a : Q) (n : nat) : 0 <= a → 0 <= ratio a n.
Proof.
  intros Ha. unfold ratio. destruct (0 <? n)%nat eqn:E; [|lra].
  apply Nat.ltb_lt in E. apply Qle_shift_div_l; [apply num_pos; exact E|]. lra.
Qed.

Lemma percentage_nonneg (a n : nat) : 0 <= percentage a n.
Proof.
  unfold percentage. destruct (0 <? n)%nat eqn:E; [|lra].
  apply Nat.ltb_lt in E.
  assert (0 <= num a / num n).
  { apply Qle_shift_div_l; [apply num_pos; exact E|].
    pose proof (num_nonneg a). lra. }
  lra.
Qed.

Lemma percentage_le_100 (a n : nat) : (a ≤ n)%nat → percentage a n <= 100.
Proof.
  intros Han. unfold percentage. destruct (0 <? n)%nat eqn:E; [|lra].
  apply Nat.ltb_lt in E.
  assert (num a / num n <= 1).
  { apply Qle_shift_div_r; [apply num_pos; exact E|].
    pose proof (num_le a n Han). lra. }
  lra.
Qed.

Lemma count_le_len (s : pystr) (c : N) : (count s c ≤ len s)%nat.
Proof.
  induction s as [|x s IH]; simpl; [lia|].
  unfold len in *. destruct (x =? c)%N; simpl; lia.
Qed.

Lemma sum_list_map_le {A : Type} (f g : A → nat) (l : list A) :
  (∀ x, (f x ≤ g x)%nat) → (sum_list (map f l) ≤ sum_list (map g l))%nat.
Proof.
  intros Hfg. induction l as [|x l IH]; simpl; [lia|].
  specialize (Hfg x). lia.
Qed.

(** The comment lines are rows of COMMENT tokens. *)
Lemma comment_lines_rows (tokens : list TokenInfo) (acc : gset nat) (row : nat) :
  row ∈ foldl add_comment_line acc tokens →
  row ∈ acc ∨ ∃ tok, tok ∈ tokens ∧ tok_type tok = COMMENT ∧ fst (tok_start tok) = row.
Proof.
  revert acc. induction tokens as [|t tokens IH]; simpl; intros acc Hrow.
  - left. exact Hrow.
  - apply IH in Hrow as [Hacc | (tok & Hin & Hty & Hr)].
    + unfold add_comment_line in Hacc. destruct (decide (tok_type t = COMMENT)).
      * apply elem_of_union in Hacc as [Hs | Hacc]; [|left; exact Hacc].
        apply elem_of_singleton in Hs. right. exists t.
        split; [apply list_elem_of_here|]. split; [assumption|]. symmetry. exact Hs.
      * left. exact Hacc.
    + right. exists tok. split; [apply list_elem_of_further; exact Hin|].
      split; assumption.
Qed.

Section Ranges.
Context `{Python}.

Lemma comment_lines_le_total (code : pystr) :
  comment_rows_in_text code →
  (size (snd (tokens_and_comment_lines code)) ≤ len (splitlines code))%nat.
Proof.
  intros Hrows. unfold tokens_and_comment_lines.
  destruct (tokenize code) as [tokens|] eqn:Etok; cbn [snd].
  - rewrite <- (size_set_seq (C:=gset nat) 1 (len (splitlines code))).
    apply subseteq_size. intros row Hrow.
    apply comment_lines_rows in Hrow as [Hemp | (tok & Hin & Hty & <-)].
    + exfalso. exact (not_elem_of_empty row Hemp).
    + apply elem_of_set_seq.
      pose proof (Hrows tokens tok Etok Hin Hty). lia.
  - rewrite size_empty. lia.
Qed.

Lemma avg_line_length_nonneg (code : pystr) : 0 <= avg_line_length_of code.
Proof. apply ratio_nonneg. apply num_nonneg. Qed.

Lemma indent_percentage_range (code : pystr) :
  0 <= indent_percentage_of code ∧ indent_percentage_of code <= 100.
Proof.
  split; [apply percentage_nonneg|]. apply percentage_le_100.
  unfold len. apply length_filter.
Qed.

Lemma blank_percentage_range (code : pystr) :
  0 <= blank_percentage_of code ∧ blank_percentage_of code <= 100.
Proof.
  split; [apply percentage_nonneg|]. apply percentage_le_100.
  unfold len. apply length_filter.
Qed.

Lemma embedded_space_percentage_range (code : pystr) :
  0 <= embedded_space_percentage_of code ∧ embedded_space_percentage_of code <= 100.
Proof.
  split; [apply percentage_nonneg|]. apply percentage_le_100.
  apply sum_list_map_le. intros line. apply count_le_len.
Qed.

Lemma comment_percentage_range (code : pystr) :
  comment_rows_in_text code →
  0 <= comment_percentage_of code ∧ comment_percentage_of code <= 100.
Proof.
  intros Hrows. split; [apply percentage_nonneg|]. apply percentage_le_100.
  apply comment_lines_le_total. exact Hrows.
Qed.

Lemma module_length_nonneg (code : pystr) : 0 <= module_length_of code.
Proof.
  unfold module_length_of. apply Qle_shift_div_l.
  - apply num_pos. lia.
  - pose proof (num_nonneg (len (non_blank_lines_of code))). lra.
Qed.

Lemma reserved_words_count_nonneg (code : pystr) : 0 <= reserved_words_count_of code.
Proof. apply num_nonneg. Qed.

Lemma avg_identifier_length_nonneg (code : pystr) : 0 <= avg_identifier_length_of code.
Proof.
  unfold avg_identifier_length_of.
  destruct (identifiers_of code) as [|name names]; [lra|].
  apply Qle_shift_div_l.
  - apply num_pos. simpl. lia.
  - pose proof (num_nonneg (sum_list (map len (name :: names)))). lra.
Qed.
End Ranges.

(** ** Ranges of the marks *)

Lemma table_valid :
  valid_params p1 ∧ valid_params p2 ∧ valid_params p3 ∧ valid_params p4 ∧
  valid_params p5 ∧ valid_params p6 ∧ valid_params p7 ∧ valid_params p8.
Proof. unfold valid_params, p1, p2, p3, p4, p5, p6, p7, p8. lra. Qed.

Lemma mark_of_range (v : Q) (p : CurveParams) :
  valid_params p → 0 <= mark_of v p ∧ mark_of v p <= max_mark_of p.
Proof.
  intros Hp. destruct (conversion_bounds v p Hp) as (m & Hm & Hr).
  unfold mark_of. rewrite Hm. exact Hr.
Qed.

(** ** Walking the syntax tree *)

Lemma AST_nested_ind (P : AST → Prop) :
  (∀ cls children, Forall P children → P (Node cls children)) →
  ∀ tree, P tree.
Proof.
  intros Hnode. fix IH 1. intros [cls children]. apply Hnode.
  induction children as [|child children IHc]; constructor.
  - apply IH.
  - exact IHc.
Qed.

Lemma ast_size_pos (tree : AST) : (1 ≤ ast_size tree)%nat.
Proof. destruct tree. simpl. lia. Qed.

Lemma forest_size_app (l1 l2 : list AST) :
  forest_size (l1 ++ l2) = (forest_size l1 + forest_size l2)%nat.
Proof.
  unfold forest_size. induction l1 as [|tree l1 IH]; simpl; [reflexivity|].
  rewrite IH. lia.
Qed.

(** With fuel for every node in the queue, the walk yields each node of
    each queued tree once. *)
Lemma walk_from_nodes (fuel : nat) (todo : list AST) :
  (forest_size todo ≤ fuel)%nat →
  walk_from fuel todo ≡ₚ flat_map subtree todo.
Proof.
  revert todo. induction fuel as [|fuel IH]; intros [|node rest] Hfuel; simpl.
  - reflexivity.
  - exfalso. unfold forest_size in Hfuel. simpl in Hfuel.
    pose proof (ast_size_pos node). lia.
  - reflexivity.
  - destruct node as [cls children]. simpl.
    constructor. rewrite IH.
    + rewrite flat_map_app. apply Permutation_app_comm.
    + rewrite forest_size_app. unfold forest_size in *. simpl in Hfuel. lia.
Qed.

Lemma walk_nodes (tree : AST) : walk tree ≡ₚ subtree tree.
Proof.
  unfold walk. rewrite walk_from_nodes.
  - simpl. rewrite app_nil_r. reflexivity.
  - unfold forest_size. simpl. lia.
Qed.

Lemma count_defs_subtree (tree : AST) :
  len (filter (λ node, is_function_def node) (subtree tree)) = count_defs tree.
Proof.
  induction tree as [cls children IH] using AST_nested_ind.
  assert (Hch :
    len (filter (λ node, is_function_def node) (flat_map subtree children))
    = sum_list (map count_defs children)).
  { induction IH as [|child children Hchild _ IHc]; [reflexivity|].
    simpl. rewrite filter_app. unfold len in *. rewrite length_app.
    rewrite Hchild, IHc. reflexivity. }
  simpl. rewrite filter_cons. unfold len in *.
  destruct cls; simpl; rewrite Hch; reflexivity.
Qed.

Lemma count_defs_walk (tree : AST) :
  len (filter (λ node, is_function_def node) (walk tree)) = count_defs tree.
Proof.
  rewrite <- count_defs_subtree. unfold len.
  apply Permutation_length. rewrite walk_nodes. reflexivity.
Qed.

Lemma only_lambdas_no_defs (tree : AST) : only_lambdas tree → count_defs tree = 0%nat.
Proof.
  intros Hl. rewrite <- count_defs_subtree. unfold only_lambdas in Hl.
  induction Hl as [|node nodes Hnode _ IH]; [reflexivity|].
  rewrite filter_cons. destruct node as [cls children]. simpl in Hnode.
  destruct Hnode as [-> | ->]; simpl; exact IH.
Qed.

Lemma measure_dict_lookup_inv (v1 v2 v3 v4 v5 v6 v7 v8 : Q) (name : string) (x : Q) :
  measure_dict v1 v2 v3 v4 v5 v6 v7 v8 !! name = Some x →
  (name, x) ∈ zip measure_names [v1; v2; v3; v4; v5; v6; v7; v8].
Proof. unfold measure_dict. apply elem_of_list_to_map_2. Qed.

Lemma measure_dict_complete (v1 v2 v3 v4 v5 v6 v7 v8 : Q) (name : string) :
  name ∈ measure_names → is_Some (measure_dict v1 v2 v3 v4 v5 v6 v7 v8 !! name).
Proof.
  intros Hin. apply elem_of_dom. rewrite measure_dict_dom.
  apply elem_of_list_to_set. exact Hin.
Qed.

(** Take a membership in a list display apart, one element at a time. *)
Ltac list_cases H :=
  repeat (apply elem_of_cons in H as [H | H]);
  [.. | apply elem_of_nil in H; contradiction].

(** ** The report *)

Section Report.
Context `{Python}.

Lemma computed_mark_breakdown (code : pystr) :
  let b := breakdown_of code in
  computed_mark b "avg_line_length" p1 (mark_of (avg_line_length_of code) p1) ∧
  computed_mark b "comment_percentage" p2 (mark_of (comment_percentage_of code) p2) ∧
  computed_mark b "indent_percentage" p3 (mark_of (indent_percentage_of code) p3) ∧
  computed_mark b "blank_percentage" p4 (mark_of (blank_percentage_of code) p4) ∧
  computed_mark b "embedded_space_percentage" p5
    (mark_of (embedded_space_percentage_of code) p5) ∧
  computed_mark b "module_length" p6 (mark_of (module_length_of code) p6) ∧
  computed_mark b "reserved_words_count" p7 (mark_of (reserved_words_count_of code) p7) ∧
  computed_mark b "avg_identifier_length" p8
    (mark_of (avg_identifier_length_of code) p8).
Proof.
  unfold computed_mark, breakdown_of. cbn [marks raw_measures].
  repeat split;
    try (eexists; split; [|apply conversion_mark_of]);
    apply measure_dict_lookup.
Qed.

Lemma total_mark_range (code : pystr) :
  0 <= total_mark (breakdown_of code) ∧ total_mark (breakdown_of code) <= 100.
Proof.
  destruct table_valid as (T1 & T2 & T3 & T4 & T5 & T6 & T7 & T8).
  pose proof (mark_of_range (avg_line_length_of code) p1 T1).
  pose proof (mark_of_range (comment_percentage_of code) p2 T2).
  pose proof (mark_of_range (indent_percentage_of code) p3 T3).
  pose proof (mark_of_range (blank_percentage_of code) p4 T4).
  pose proof (mark_of_range (embedded_space_percentage_of code) p5 T5).
  pose proof (mark_of_range (module_length_of code) p6 T6).
  pose proof (mark_of_range (reserved_words_count_of code) p7 T7).
  pose proof (mark_of_range (avg_identifier_length_of code) p8 T8).
  unfold breakdown_of. cbn [total_mark].
  unfold max_mark_of, p1, p2, p3, p4, p5, p6, p7, p8 in *. lra.
Qed.

Lemma raw_measures_nonneg (code : pystr) (name : string) (x : Q) :
  raw_measures (breakdown_of code) !! name = Some x → 0 <= x.
Proof.
  unfold breakdown_of. cbn [raw_measures]. intros Hx.
  apply measure_dict_lookup_inv in Hx. simpl in Hx.
  list_cases Hx; injection Hx as _ ->.
  - apply avg_line_length_nonneg.
  - apply percentage_nonneg.
  - apply indent_percentage_range.
  - apply blank_percentage_range.
  - apply embedded_space_percentage_range.
  - apply module_length_nonneg.
  - apply reserved_words_count_nonneg.
  - apply avg_identifier_length_nonneg.
Qed.

Lemma raw_percentages_le_100 (code : pystr) (name : string) (x : Q) :
  comment_rows_in_text code →
  name ∈ percentage_names →
  raw_measures (breakdown_of code) !! name = Some x → x <= 100.
Proof.
  intros Hrows Hname. unfold breakdown_of. cbn [raw_measures].
  pose proof (measure_dict_lookup
    (avg_line_length_of code) (comment_percentage_of code)
    (indent_percentage_of code) (blank_percentage_of code)
    (embedded_space_percentage_of code) (module_length_of code)
    (reserved_words_count_of code) (avg_identifier_length_of code))
    as (_ & L2 & L3 & L4 & L5 & _).
  unfold percentage_names in Hname.
  list_cases Hname; subst name; intros Hx.
  - rewrite L2 in Hx. injection Hx as <-. apply comment_percentage_range. exact Hrows.
  - rewrite L3 in Hx. injection Hx as <-. apply indent_percentage_range.
  - rewrite L4 in Hx. injection Hx as <-. apply blank_percentage_range.
  - rewrite L5 in Hx. injection Hx as <-. apply embedded_space_percentage_range.
Qed.
End Report.

(** C2.  For every text, [analyze_style] returns a report whose
    [total_mark] is the sum [m1 + ... + m8] of the eight marks, each the
    result of [conversion] on its raw measure, with no rounding; the
    maximum marks of the table sum to 100 and the total lies between 0
    and 100. *)
Theorem C2_total_mark_is_sum_of_marks `{Python} (code : pystr) :
  ∃ b m1 m2 m3 m4 m5 m6 m7 m8,
    analyze_style code = Ok b ∧
    computed_mark b "avg_line_length" p1 m1 ∧
    computed_mark b "comment_percentage" p2 m2 ∧
    computed_mark b "indent_percentage" p3 m3 ∧
    computed_mark b "blank_percentage" p4 m4 ∧
    computed_mark b "embedded_space_percentage" p5 m5 ∧
    computed_mark b "module_length" p6 m6 ∧
    computed_mark b "reserved_words_count" p7 m7 ∧
    computed_mark b "avg_identifier_length" p8 m8 ∧
    total_mark b = m1 + m2 + m3 + m4 + m5 + m6 + m7 + m8 ∧
    max_mark_of p1 + max_mark_of p2 + max_mark_of p3 + max_mark_of p4
      + max_mark_of p5 + max_mark_of p6 + max_mark_of p7 + max_mark_of p8 == 100 ∧
    0 <= total_mark b ∧ total_mark b <= 100.
Proof.
  exists (breakdown_of code).
  exists (mark_of (avg_line_length_of code) p1), (mark_of (comment_percentage_of code) p2),
    (mark_of (indent_percentage_of code) p3), (mark_of (blank_percentage_of code) p4),
    (mark_of (embedded_space_percentage_of code) p5), (mark_of (module_length_of code) p6),
    (mark_of (reserved_words_count_of code) p7),
    (mark_of (avg_identifier_length_of code) p8).
  split; [apply analyze_style_breakdown|].
  pose proof (computed_mark_breakdown code) as (C1 & C2 & C3 & C4 & C5 & C6 & C7 & C8).
  do 8 (split; [assumption|]).
  split; [reflexivity|].
  split; [reflexivity|].
  apply total_mark_range.
Qed.

(** C3.  For every text whose COMMENT tokens start on lines of the text,
    the raw measures of the report hold all eight entries, every entry is
    at least 0, and the four percentages are at most 100. *)
Theorem C3_raw_measures_complete_and_in_range `{Python} (code : pystr) :
  comment_rows_in_text code →
  ∃ b,
    analyze_style code = Ok b ∧
    (∀ name, name ∈ measure_names → is_Some (raw_measures b !! name)) ∧
    (∀ name x, raw_measures b !! name = Some x → 0 <= x) ∧
    (∀ name x, name ∈ percentage_names →
               raw_measures b !! name = Some x → 0 <= x ∧ x <= 100).
Proof.
  intros Hrows. exists (breakdown_of code).
  split; [apply analyze_style_breakdown|].
  split; [|split].
  - intros name Hname. apply measure_dict_complete. exact Hname.
  - apply raw_measures_nonneg.
  - intros name x Hname Hx. split.
    + apply (raw_measures_nonneg code name x Hx).
    + apply (raw_percentages_le_100 code name x Hrows Hname Hx).
Qed.

(** ** What the report depends on *)

(** The four line-based measures do not look at the interpreter. *)
Lemma line_based_same (py py' : Python) (code : pystr) (name : string) :
  name ∈ line_based_names →
  raw_measures (@breakdown_of py' code) !! name
  = raw_measures (@breakdown_of py code) !! name.
Proof.
  intros Hname. unfold line_based_names in Hname.
  list_cases Hname; subst name; reflexivity.
Qed.

(** The report is a function of the text, of the tokens and the tree the
    interpreter gives for it, and of the set of keywords. *)
Lemma breakdown_of_ext (py py' : Python) (code : pystr) :
  @tokenize py code = @tokenize py' code →
  @parse py code = @parse py' code →
  (list_to_set (@kwlist py) : gset pystr) = list_to_set (@kwlist py') →
  @breakdown_of py code = @breakdown_of py' code.
Proof.
  intros Htok Hparse Hkw.
  unfold breakdown_of, comment_percentage_of, module_length_of,
    reserved_words_count_of, avg_identifier_length_of, identifiers_of,
    tokens_and_comment_lines, count_function_defs.
  rewrite Htok, Hparse, Hkw. reflexivity.
Qed.

(** Without tokens the keyword list is not looked at either. *)
Lemma breakdown_of_no_tokens (py py' : Python) (code : pystr) :
  @tokenize py code = None →
  @tokenize py' code = Some [] →
  @parse py' code = @parse py code →
  @breakdown_of py' code = @breakdown_of py code.
Proof.
  intros Hfail Hempty Hparse.
  unfold breakdown_of, comment_percentage_of, module_length_of,
    reserved_words_count_of, avg_identifier_length_of, identifiers_of,
    tokens_and_comment_lines, count_function_defs.
  rewrite Hfail, Hempty, Hparse. reflexivity.
Qed.

Lemma percentage_of_none (n : nat) : percentage 0 n == 0.
Proof.
  unfold percentage. destruct (0 <? n)%nat; [|reflexivity].
  unfold Qdiv. change (num 0) with 0. ring.
Qed.

(** No NAME token: no keyword is recorded and no identifier is kept. *)
Lemma no_names_no_reserved_words (kw : gset pystr) (tokens : list TokenInfo)
    (acc : gset pystr) :
  Forall (λ tok, tok_type tok ≠ NAME) tokens →
  foldl (add_reserved_word kw) acc tokens = acc.
Proof.
  intros Hno. revert acc. induction Hno as [|t tokens Ht _ IH]; intros acc; simpl.
  - reflexivity.
  - rewrite IH. unfold add_reserved_word.
    destruct (decide _) as [[Hname _]|]; [contradiction|reflexivity].
Qed.

Lemma no_names_no_identifiers (kw : gset pystr) (tokens : list TokenInfo) :
  Forall (λ tok, tok_type tok ≠ NAME) tokens →
  filter (λ tok, tok_type tok = NAME ∧ tok_string tok ∉ kw) tokens = [].
Proof.
  intros Hno. induction Hno as [|t tokens Ht _ IH]; [reflexivity|].
  rewrite filter_cons. destruct (decide _) as [[Hname _]|]; [contradiction|exact IH].
Qed.

Section EmptyStream.
Context `{Python}.

Lemma tokens_without_names (code : pystr) :
  no_name_tokens code →
  Forall (λ tok, tok_type tok ≠ NAME) (fst (tokens_and_comment_lines code)).
Proof.
  intros Hno. unfold tokens_and_comment_lines.
  destruct (tokenize code) as [tokens|] eqn:Etok; cbn [fst].
  - apply Hno. exact Etok.
  - constructor.
Qed.

Lemma reserved_words_count_no_names (code : pystr) :
  no_name_tokens code → reserved_words_count_of code = 0.
Proof.
  intros Hno. unfold reserved_words_count_of.
  rewrite no_names_no_reserved_words by (apply tokens_without_names; exact Hno).
  reflexivity.
Qed.

Lemma avg_identifier_length_no_names (code : pystr) :
  no_name_tokens code → avg_identifier_length_of code = 0.
Proof.
  intros Hno. unfold avg_identifier_length_of, identifiers_of.
  rewrite no_names_no_identifiers by (apply tokens_without_names; exact Hno).
  reflexivity.
Qed.

Lemma tokenize_failed_no_names (code : pystr) :
  tokenize code = None → no_name_tokens code.
Proof. intros Hfail tokens Htok. congruence. Qed.

Lemma comment_percentage_failed (code : pystr) :
  tokenize code = None → comment_percentage_of code == 0.
Proof.
  intros Hfail. unfold comment_percentage_of, tokens_and_comment_lines.
  rewrite Hfail. cbn [snd]. rewrite size_empty. apply percentage_of_none.
Qed.
End EmptyStream.

(** C7.  When tokenizing the text fails, [analyze_style] still returns a
    report with all eight raw measures; [comment_percentage],
    [reserved_words_count] and [avg_identifier_length] are 0; the four
    line-based measures are what they are with any other tokenizer
    ([py']), and the whole report is the one of a tokenizer that returns
    no token. *)
Theorem C7_failed_tokenize_is_empty_stream (py py' : Python) (code : pystr) :
  @tokenize py code = None →
  ∃ b,
    @analyze_style py code = Ok b ∧
    (∀ name, name ∈ measure_names → is_Some (raw_measures b !! name)) ∧
    (∃ x, raw_measures b !! "comment_percentage"%string = Some x ∧ x == 0) ∧
    (∃ x, raw_measures b !! "reserved_words_count"%string = Some x ∧ x == 0) ∧
    (∃ x, raw_measures b !! "avg_identifier_length"%string = Some x ∧ x == 0) ∧
    (∀ b' name, @analyze_style py' code = Ok b' → name ∈ line_based_names →
                raw_measures b' !! name = raw_measures b !! name) ∧
    (@tokenize py' code = Some [] → @parse py' code = @parse py code →
     @analyze_style py' code = Ok b).
Proof.
  intros Hfail. exists (@breakdown_of py code).
  pose proof (measure_dict_lookup
    (@avg_line_length_of code) (@comment_percentage_of py code)
    (indent_percentage_of code) (blank_percentage_of code)
    (embedded_space_percentage_of code) (@module_length_of py code)
    (@reserved_words_count_of py code) (@avg_identifier_length_of py code))
    as (_ & L2 & _ & _ & _ & _ & L7 & L8).
  split; [apply analyze_style_breakdown|].
  split; [intros name Hname; apply measure_dict_complete; exact Hname|].
  split; [eexists; split; [exact L2|apply comment_percentage_failed; exact Hfail]|].
  split.
  { eexists. split; [exact L7|].
    rewrite reserved_words_count_no_names by (apply tokenize_failed_no_names; exact Hfail).
    reflexivity. }
  split.
  { eexists. split; [exact L8|].
    rewrite avg_identifier_length_no_names by (apply tokenize_failed_no_names; exact Hfail).
    reflexivity. }
  split.
  - intros b' name Hb' Hname. rewrite analyze_style_breakdown in Hb'.
    injection Hb' as <-. apply line_based_same. exact Hname.
  - intros Hempty Hparse. rewrite analyze_style_breakdown. f_equal.
    apply breakdown_of_no_tokens; assumption.
Qed.

(** ** The empty text *)

(** A measure of 0 earns no mark: every curve of the table starts above 0. *)
Lemma mark_of_zero (v : Q) (p : CurveParams) :
  v == 0 → In p [p1; p2; p3; p4; p5; p6; p7; p8] → mark_of v p = 0.
Proof.
  intros Hv Hp. unfold mark_of.
  assert (Hc : conversion v p = Ok 0).
  { simpl in Hp.
    repeat destruct Hp as [<- | Hp]; try contradiction;
      apply conversion_outside; left; lra. }
  rewrite Hc. reflexivity.
Qed.

Section EmptyText.
Context `{Python}.

Lemma module_length_empty : module_length_of [] == 0.
Proof.
  unfold module_length_of, non_blank_lines_of. simpl.
  unfold Qdiv. change (num 0) with 0. ring.
Qed.

Lemma raw_measures_empty (name : string) (x : Q) :
  no_name_tokens [] →
  raw_measures (breakdown_of []) !! name = Some x → x == 0.
Proof.
  intros Hno. unfold breakdown_of. cbn [raw_measures]. intros Hx.
  apply measure_dict_lookup_inv in Hx. simpl in Hx.
  list_cases Hx; injection Hx as _ ->.
  - reflexivity.
  - reflexivity.
  - reflexivity.
  - reflexivity.
  - reflexivity.
  - apply module_length_empty.
  - rewrite reserved_words_count_no_names by exact Hno. reflexivity.
  - rewrite avg_identifier_length_no_names by exact Hno. reflexivity.
Qed.

Lemma total_mark_empty : no_name_tokens [] → total_mark (breakdown_of []) == 0.
Proof.
  intros Hno. unfold breakdown_of. cbn [total_mark].
  rewrite (mark_of_zero (module_length_of []) p6)
    by (apply module_length_empty || (simpl; tauto)).
  rewrite reserved_words_count_no_names by exact Hno.
  rewrite avg_identifier_length_no_names by exact Hno.
  reflexivity.
Qed.
End EmptyText.

(** C8.  On the empty text, whose tokens hold no NAME, [analyze_style]
    returns a report in which each of the eight raw measures is 0 and
    the total mark is 0. *)
Theorem C8_empty_text_scores_zero `{Python} :
  no_name_tokens [] →
  ∃ b,
    analyze_style [] = Ok b ∧
    (∀ name, name ∈ measure_names →
             ∃ x, raw_measures b !! name = Some x ∧ x == 0) ∧
    total_mark b == 0.
Proof.
  intros Hno. exists (breakdown_of []).
  split; [apply analyze_style_breakdown|]. split.
  - intros name Hname.
    destruct (measure_dict_complete
      (avg_line_length_of []) (comment_percentage_of [])
      (indent_percentage_of []) (blank_percentage_of [])
      (embedded_space_percentage_of []) (module_length_of [])
      (reserved_words_count_of []) (avg_identifier_length_of []) name Hname)
      as [x Hx].
    exists x. split; [exact Hx|]. apply (raw_measures_empty name x Hno Hx).
  - apply total_mark_empty. exact Hno.
Qed.

(** C9.  Two runs of [analyze_style] on the same text, for which the
    tokenizer and the parser answer the same and the keywords are the
    same, return the same report: raw measures, marks and total. *)
Theorem C9_same_text_same_report (py py' : Python) (code : pystr) :
  @tokenize py code = @tokenize py' code →
  @parse py code = @parse py' code →
  (list_to_set (@kwlist py) : gset pystr) = list_to_set (@kwlist py') →
  @analyze_style py code = @analyze_style py' code.
Proof.
  intros Htok Hparse Hkw. rewrite !analyze_style_breakdown. f_equal.
  apply breakdown_of_ext; assumption.
Qed.

(** ** Function definitions and module length *)

Section Modules.
Context `{Python}.

Lemma count_function_defs_parsed (code : pystr) (tree : AST) :
  parse code = Some tree → count_function_defs code = count_defs tree.
Proof.
  intros Hparse. unfold count_function_defs. rewrite Hparse.
  apply count_defs_walk.
Qed.
End Modules.

(** C10.  When the text parses, the number of function definitions that
    enters [module_length] is the number of def and async def nodes of
    the tree, at any depth; a lambda is not one of them, and for a tree
    whose only function-like nodes are lambdas [module_length] is the
    number of non-blank lines divided by 1. *)
Theorem C10_lambdas_are_not_modules `{Python} (code : pystr) (tree : AST) :
  parse code = Some tree →
  count_function_defs code = count_defs tree ∧
  (∀ children, count_defs (Node Lambda children) = sum_list (map count_defs children)) ∧
  (only_lambdas tree →
   ∃ b x,
     analyze_style code = Ok b ∧
     raw_measures b !! "module_length"%string = Some x ∧
     x == num (len (non_blank_lines_of code)) / 1).
Proof.
  intros Hparse. split; [|split].
  - apply count_function_defs_parsed. exact Hparse.
  - intros children. reflexivity.
  - intros Hl. exists (breakdown_of code), (module_length_of code).
    split; [apply analyze_style_breakdown|]. split.
    + unfold breakdown_of. cbn [raw_measures]. apply measure_dict_lookup.
    + unfold module_length_of.
      rewrite (count_function_defs_parsed code tree Hparse).
      rewrite (only_lambdas_no_defs tree Hl). reflexivity.
Qed.

(** ** The examples, run *)

Example conversion_on_the_rising_ramp :
  conversion 45 p1 = Ok (15 * (45 - 40) / (50 - 40)).
Proof. reflexivity. Qed.

(** The scenario of the specification: one assignment on one line. *)
Example assign_report :
  @analyze_style example_python text_assign
  = Ok {| raw_measures := measure_dict 5 0 0 0 (200 # 5) 1 0 1;
          marks := measure_dict 0 0 0 0 0 0 0 0;
          total_mark := 0 |}.
Proof. vm_compute. reflexivity. Qed.

Example lambda_report :
  @analyze_style example_python text_lambda
  = Ok {| raw_measures := measure_dict (26 # 2) (100 # 2) (0 # 2) (0 # 2) (700 # 26) 2 1 (4 # 4);
          marks := measure_dict 0 0 0 0 0 0 0 0;
          total_mark := 0 |}.
Proof. vm_compute. reflexivity. Qed.

(** A line of spaces is blank: it counts in [blank_percentage] and not in
    [avg_line_length] or [indent_percentage]. *)
Example spaces_line_is_blank :
  let code := of_ascii "ab" ++ [LF] ++ of_ascii "   " ++ [LF] in
  blank_percentage_of code = 100 # 2 ∧
  avg_line_length_of code = 2 ∧
  indent_percentage_of code = 0.
Proof. vm_compute. repeat split. Qed.

Example walk_is_breadth_first :
  map node_cls (walk (Node OtherNode [Node FunctionDef [Node Lambda []];
                                      Node AsyncFunctionDef []]))
  = [OtherNode; FunctionDef; AsyncFunctionDef; Lambda].
Proof. reflexivity. Qed.

Lemma example_comment_rows : @comment_rows_in_text example_python text_lambda.
Proof.
  intros tokens tok Htok Hin Hty.
  vm_compute in Htok. injection Htok as <-.
  list_cases Hin; subst tok; try discriminate Hty.
  vm_compute. lia.
Qed.

Lemma example_no_names_in_empty : @no_name_tokens example_python [].
Proof.
  intros tokens Htok. vm_compute in Htok. injection Htok as <-.
  repeat constructor; discriminate.
Qed.

Lemma tree_lambda_only_lambdas : only_lambdas tree_lambda.
Proof.
  unfold only_lambdas. simpl.
  repeat constructor; simpl; tauto.
Qed.

Lemma reordered_keywords :
  (list_to_set (@kwlist example_python) : gset pystr)
  = list_to_set (@kwlist reordered_python).
Proof.
  apply set_eq. intros name. rewrite !elem_of_list_to_set, !list_elem_of_In.
  apply in_rev.
Qed.

(** ** The theorems at concrete inputs *)



Lemma C5_witness :
  (40 < 50 ∧ 50 <= 70 ∧ 70 < 90 ∧ 0 <= 15) ∧
  continuous_at (fun v => conversion v (15, 40, 50, 70, 90)) 40 ∧
  continuous_at (fun v => conversion v (15, 40, 50, 70, 90)) 50 ∧
  continuous_at (fun v => conversion v (15, 40, 50, 70, 90)) 70 ∧
  continuous_at (fun v => conversion v (15, 40, 50, 70, 90)) 90.
Proof.
  assert (H : 40 < 50 ∧ 50 <= 70 ∧ 70 < 90 ∧ 0 <= 15) by lra.
  split; [exact H|]. destruct H as (H1 & H2 & H3 & H4).
  apply (C5_continuous_at_breakpoints 15 40 50 70 90 H1 H2 H3 H4).
Defined.

Lemma C3_witness :
  @comment_rows_in_text example_python text_lambda ∧
  ∃ b,
    @analyze_style example_python text_lambda = Ok b ∧
    (∀ name, name ∈ measure_names → is_Some (raw_measures b !! name)) ∧
    (∀ name x, raw_measures b !! name = Some x → 0 <= x) ∧
    (∀ name x, name ∈ percentage_names →
               raw_measures b !! name = Some x → 0 <= x ∧ x <= 100).
Proof.
  split; [exact example_comment_rows|].
  apply (@C3_raw_measures_complete_and_in_range example_python text_lambda
           example_comment_rows).
Defined.

Lemma C7_witness :
  @tokenize example_python text_unclosed = None ∧
  ∃ b,
    @analyze_style example_python text_unclosed = Ok b ∧
    (∀ name, name ∈ measure_names → is_Some (raw_measures b !! name)) ∧
    (∃ x, raw_measures b !! "comment_percentage"%string = Some x ∧ x == 0) ∧
    (∃ x, raw_measures b !! "reserved_words_count"%string = Some x ∧ x == 0) ∧
    (∃ x, raw_measures b !! "avg_identifier_length"%string = Some x ∧ x == 0) ∧
    (∀ b' name, @analyze_style tokenless_python text_unclosed = Ok b' →
                name ∈ line_based_names →
                raw_measures b' !! name = raw_measures b !! name) ∧
    (@tokenize tokenless_python text_unclosed = Some [] →
     @parse tokenless_python text_unclosed = @parse example_python text_unclosed →
     @analyze_style tokenless_python text_unclosed = Ok b).
Proof.
  assert (Hfail : @tokenize example_python text_unclosed = None) by reflexivity.
  split; [exact Hfail|].
  apply (C7_failed_tokenize_is_empty_stream example_python tokenless_python
           text_unclosed Hfail).
Defined.

Lemma C8_witness :
  @no_name_tokens example_python [] ∧
  ∃ b,
    @analyze_style example_python [] = Ok b ∧
    (∀ name, name ∈ measure_names →
             ∃ x, raw_measures b !! name = Some x ∧ x == 0) ∧
    total_mark b == 0.
Proof.
  split; [exact example_no_names_in_empty|].
  apply (@C8_empty_text_scores_zero example_python example_no_names_in_empty).
Defined.

Lemma C9_witness :
  @analyze_style example_python text_lambda
  = @analyze_style reordered_python text_lambda.
Proof.
  apply (C9_same_text_same_report example_python reordered_python text_lambda).
  - reflexivity.
  - reflexivity.
  - exact reordered_keywords.
Defined.

Lemma C10_witness :
  @parse example_python text_lambda = Some tree_lambda ∧
  only_lambdas tree_lambda ∧
  @count_function_defs example_python text_lambda = count_defs tree_lambda ∧
  ∃ b x,
    @analyze_style example_python text_lambda = Ok b ∧
    raw_measures b !! "module_length"%string = Some x ∧
    x == num (len (non_blank_lines_of text_lambda)) / 1.
Proof.
  assert (Hparse : @parse example_python text_lambda = Some tree_lambda) by reflexivity.
  destruct (@C10_lambdas_are_not_modules example_python text_lambda tree_lambda Hparse)
    as (Hcount & _ & Hlen).
  split; [exact Hparse|]. split; [exact tree_lambda_only_lambdas|].
  split; [exact Hcount|]. apply Hlen. exact tree_lambda_only_lambdas.
Defined.

(** ** The shape of the curve *)

Section Shape.
Variables max_mark lo lotol hitol hi : Q.
Hypothesis lo_lotol : lo <= lotol.
Hypothesis lotol_hitol : lotol <= hitol.
Hypothesis hitol_hi : hitol <= hi.
Hypothesis max_mark_nonneg : 0 <= max_mark.

Let params : CurveParams := (max_mark, lo, lotol, hitol, hi).

(** What a mark is, region by region, without a division: on a ramp the
    mark times the ramp's width is the height reached. *)
Lemma conversion_regions (v mark : Q) :
  conversion v params = Ok mark ->
  0 <= mark /\ mark <= max_mark /\
  (v < lo \/ hi < v -> mark == 0) /\
  (lotol <= v <= hitol -> mark == max_mark) /\
  (lo <= v < lotol -> mark * (lotol - lo) == max_mark * (v - lo)) /\
  (hitol < v <= hi -> mark * (hi - hitol) == max_mark * (hi - v)).
Proof using lo_lotol lotol_hitol hitol_hi max_mark_nonneg.
  intros Hm.
  destruct (conversion_bounds v params) as (m' & Hm' & Hlo & Hhi).
  { unfold valid_params, params. auto. }
  rewrite Hm in Hm'. injection Hm' as <-.
  split; [exact Hlo|]. split; [exact Hhi|].
  pose proof (conversion_branch_spec max_mark lo lotol hitol hi v) as Hb.
  rewrite conversion_by_branch in Hm. fold params in Hb.
  destruct (conversion_branch v params); unfold params in Hm; simpl in Hm.
  - injection Hm as <-.
    split; [reflexivity|]. split; [intros; exfalso; lra|].
    split; intros; exfalso; lra.
  - injection Hm as <-.
    split; [intros; exfalso; lra|]. split; [reflexivity|].
    split; intros; exfalso; lra.
  - rewrite truediv_nonzero in Hm by lra. injection Hm as <-.
    split; [intros; exfalso; lra|]. split; [intros; exfalso; lra|].
    split; [|intros; exfalso; lra].
    intros _. rewrite Qmult_comm. apply Qmult_div_r. lra.
  - rewrite truediv_nonzero in Hm by lra. injection Hm as <-.
    split; [intros; exfalso; lra|]. split; [intros; exfalso; lra|].
    split; [intros; exfalso; lra|].
    intros _. rewrite Qmult_comm. apply Qmult_div_r. lra.
  - contradiction.
Qed.

(** Up to the end of the plateau a larger value earns at least as much. *)
Lemma conversion_rises (v w mv mw : Q) :
  conversion v params = Ok mv -> conversion w params = Ok mw ->
  v <= w -> w <= hitol -> mv <= mw.
Proof using lo_lotol lotol_hitol hitol_hi max_mark_nonneg.
  intros Hv Hw Hvw Hwh.
  apply conversion_regions in Hv as (V0 & V1 & Vout & Vpl & Vup & Vdn).
  apply conversion_regions in Hw as (W0 & W1 & Wout & Wpl & Wup & Wdn).
  destruct (Qlt_le_dec w lo) as [Hwlo | Hwlo].
  - rewrite (Vout ltac:(lra)), (Wout ltac:(lra)). lra.
  - destruct (Qlt_le_dec w lotol) as [Hwl | Hwl].
    + destruct (Qlt_le_dec v lo) as [Hvlo | Hvlo].
      * rewrite (Vout ltac:(lra)). exact W0.
      * specialize (Vup ltac:(lra)). specialize (Wup ltac:(lra)).
        apply (Qmult_le_r _ _ (lotol - lo)); [lra|].
        rewrite Vup, Wup. nra.
    + rewrite (Wpl ltac:(lra)). exact V1.
Qed.

(** From the start of the plateau on a larger value earns at most as
    much. *)
Lemma conversion_falls (v w mv mw : Q) :
  conversion v params = Ok mv -> conversion w params = Ok mw ->
  v <= w -> lotol <= v -> mw <= mv.
Proof using lo_lotol lotol_hitol hitol_hi max_mark_nonneg.
  intros Hv Hw Hvw Hvl.
  apply conversion_regions in Hv as (V0 & V1 & Vout & Vpl & Vup & Vdn).
  apply conversion_regions in Hw as (W0 & W1 & Wout & Wpl & Wup & Wdn).
  destruct (Qlt_le_dec hi v) as [Hvhi | Hvhi].
  - rewrite (Vout ltac:(lra)), (Wout ltac:(lra)). lra.
  - destruct (Qlt_le_dec hitol v) as [Hvh | Hvh].
    + destruct (Qlt_le_dec hi w) as [Hwhi | Hwhi].
      * rewrite (Wout ltac:(lra)). exact V0.
      * specialize (Vdn ltac:(lra)). specialize (Wdn ltac:(lra)).
        apply (Qmult_le_r _ _ (hi - hitol)); [lra|].
        rewrite Vdn, Wdn. nra.
    + rewrite (Vpl ltac:(lra)). exact W1.
Qed.

(** The full mark is earned on the plateau and nowhere else. *)
Lemma full_mark_iff_plateau (v mark : Q) :
  0 < max_mark ->
  conversion v params = Ok mark ->
  (mark == max_mark <-> lotol <= v <= hitol).
Proof using lo_lotol lotol_hitol hitol_hi max_mark_nonneg.
  intros Hpos Hm.
  apply conversion_regions in Hm as (M0 & M1 & Mout & Mpl & Mup & Mdn).
  split; [|exact Mpl].
  intros Hfull.
  destruct (Qlt_le_dec v lo) as [H1 | H1]; [specialize (Mout ltac:(lra)); lra|].
  destruct (Qlt_le_dec hi v) as [H2 | H2]; [specialize (Mout ltac:(lra)); lra|].
  destruct (Qlt_le_dec v lotol) as [H3 | H3].
  { specialize (Mup ltac:(lra)). rewrite Hfull in Mup. exfalso. nra. }
  destruct (Qlt_le_dec hitol v) as [H4 | H4].
  { specialize (Mdn ltac:(lra)). rewrite Hfull in Mdn. exfalso. nra. }
  lra.
Qed.
End Shape.

Section Slopes.
Variables max_mark lo lotol hitol hi : Q.
Hypothesis rising_width : lo < lotol.
Hypothesis plateau_width : lotol <= hitol.
Hypothesis falling_width : hitol < hi.
Hypothesis max_mark_nonneg : 0 <= max_mark.

Let params : CurveParams := (max_mark, lo, lotol, hitol, hi).

(** With ramps of nonzero width and a positive maximum, no mark is earned
    at or outside the two bounds, and some mark strictly between them. *)
Lemma zero_mark_iff_outside (v mark : Q) :
  0 < max_mark ->
  conversion v params = Ok mark ->
  (mark == 0 <-> v <= lo \/ hi <= v).
Proof using rising_width plateau_width falling_width max_mark_nonneg.
  intros Hpos Hm.
  apply conversion_pieces in Hm as (P1 & P2 & P3 & P4 & P5); try assumption.
  split.
  - intros Hz.
    destruct (Qlt_le_dec lo v) as [H1 | H1]; [|left; exact H1].
    destruct (Qlt_le_dec v hi) as [H2 | H2]; [|right; exact H2].
    exfalso.
    destruct (Qlt_le_dec v lotol) as [H3 | H3].
    { specialize (P2 ltac:(lra)). rewrite Hz in P2. nra. }
    destruct (Qlt_le_dec hitol v) as [H4 | H4].
    { specialize (P4 ltac:(lra)). rewrite Hz in P4. nra. }
    specialize (P3 ltac:(lra)). lra.
  - intros [H | H]; [apply P1 | apply P5]; exact H.
Qed.

(** Between two values the mark rises no faster than the rising ramp and
    falls no faster than the falling ramp. *)
Lemma conversion_slopes (v w mv mw : Q) :
  conversion v params = Ok mv -> conversion w params = Ok mw ->
  v <= w ->
  (mw - mv) * (lotol - lo) <= max_mark * (w - v) /\
  (mv - mw) * (hi - hitol) <= max_mark * (w - v).
Proof using rising_width plateau_width falling_width max_mark_nonneg.
  intros Hv Hw Hvw.
  assert (Hrange : forall x m, conversion x params = Ok m -> 0 <= m /\ m <= max_mark).
  { intros x m Hx. destruct (conversion_bounds x params) as (m' & Hm' & Hr).
    - unfold valid_params, params. repeat split; lra.
    - rewrite Hx in Hm'. injection Hm' as <-. exact Hr. }
  destruct (Hrange v mv Hv) as [V0 V1]. destruct (Hrange w mw Hw) as [W0 W1].
  apply conversion_pieces in Hv as (V1' & V2 & V3 & V4 & V5); try assumption.
  apply conversion_pieces in Hw as (W1' & W2 & W3 & W4 & W5); try assumption.
  split.
  - destruct (Qlt_le_dec w lo) as [Hw1 | Hw1].
    { specialize (W1' ltac:(lra)). specialize (V1' ltac:(lra)). rewrite W1', V1'. nra. }
    destruct (Qlt_le_dec w lotol) as [Hw2 | Hw2].
    { specialize (W2 ltac:(lra)).
      destruct (Qlt_le_dec v lo) as [Hv1 | Hv1].
      - specialize (V1' ltac:(lra)). rewrite V1'. nra.
      - specialize (V2 ltac:(lra)). nra. }
    destruct (Qlt_le_dec v lo) as [Hv1 | Hv1].
    { specialize (V1' ltac:(lra)). rewrite V1'. nra. }
    destruct (Qlt_le_dec v lotol) as [Hv2 | Hv2].
    { specialize (V2 ltac:(lra)). nra. }
    destruct (Qlt_le_dec w hitol) as [Hw3 | Hw3].
    { specialize (W3 ltac:(lra)). specialize (V3 ltac:(lra)). rewrite W3, V3. nra. }
    destruct (Qlt_le_dec v hitol) as [Hv3 | Hv3].
    { specialize (V3 ltac:(lra)). rewrite V3. nra. }
    destruct (Qlt_le_dec w hi) as [Hw4 | Hw4].
    { specialize (W4 ltac:(lra)). specialize (V4 ltac:(lra)).
      assert (mw <= mv).
      { apply (Qmult_le_r _ _ (hi - hitol)); [lra|]. rewrite W4, V4. nra. }
      nra. }
    specialize (W5 ltac:(lra)). rewrite W5. nra.
  - destruct (Qlt_le_dec hi v) as [Hv1 | Hv1].
    { specialize (W5 ltac:(lra)). specialize (V5 ltac:(lra)). rewrite W5, V5. nra. }
    destruct (Qlt_le_dec hitol v) as [Hv2 | Hv2].
    { specialize (V4 ltac:(lra)).
      destruct (Qlt_le_dec hi w) as [Hw1 | Hw1].
      - specialize (W5 ltac:(lra)). rewrite W5. nra.
      - specialize (W4 ltac:(lra)). nra. }
    destruct (Qlt_le_dec hi w) as [Hw1 | Hw1].
    { specialize (W5 ltac:(lra)). rewrite W5. nra. }
    destruct (Qlt_le_dec hitol w) as [Hw2 | Hw2].
    { specialize (W4 ltac:(lra)). nra. }
    destruct (Qlt_le_dec lotol v) as [Hv3 | Hv3].
    { specialize (W3 ltac:(lra)). specialize (V3 ltac:(lra)). rewrite W3, V3. nra. }
    destruct (Qlt_le_dec lotol w) as [Hw3 | Hw3].
    { specialize (W3 ltac:(lra)). rewrite W3. nra. }
    destruct (Qlt_le_dec lo v) as [Hv4 | Hv4].
    { specialize (W2 ltac:(lra)). specialize (V2 ltac:(lra)).
      assert (mv <= mw).
      { apply (Qmult_le_r _ _ (lotol - lo)); [lra|]. rewrite W2, V2. nra. }
      nra. }
    specialize (V1' ltac:(lra)). rewrite V1'. nra.
Qed.
End Slopes.

(** ** Changing the unit of a measure *)

Lemma Qlt_bool_affine (k c x y : Q) :
  0 < k -> (k * x + c <? k * y + c) = (x <? y).
Proof.
  intros Hk. destruct (x <? y) eqn:E.
  - apply Qlt_bool_iff. apply Qlt_bool_iff in E. nra.
  - apply Qlt_bool_false. apply Qlt_bool_false in E. nra.
Qed.

Lemma Qle_bool_affine (k c x y : Q) :
  0 < k -> (k * x + c <=? k * y + c) = (x <=? y).
Proof.
  intros Hk. destruct (x <=? y) eqn:E.
  - apply Qle_bool_iff. apply Qle_bool_iff in E. nra.
  - apply Qle_bool_false. apply Qle_bool_false in E. nra.
Qed.

Section Units.
Variables max_mark lo lotol hitol hi : Q.

(** The same arm runs when the value and the four bounds go through the
    same change of unit [x -> k * x + c], whatever the maximum mark. *)
Lemma conversion_branch_affine (k c s v : Q) :
  0 < k ->
  conversion_branch (k * v + c)
    (s, k * lo + c, k * lotol + c, k * hitol + c, k * hi + c)
  = conversion_branch v (max_mark, lo, lotol, hitol, hi).
Proof using Type.
  intros Hk. unfold conversion_branch.
  rewrite !Qlt_bool_affine, !Qle_bool_affine by exact Hk. reflexivity.
Qed.

Lemma conversion_affine (k c v m m' : Q) :
  0 < k ->
  conversion v (max_mark, lo, lotol, hitol, hi) = Ok m ->
  conversion (k * v + c)
    (max_mark, k * lo + c, k * lotol + c, k * hitol + c, k * hi + c) = Ok m' ->
  m' == m.
Proof using Type.
  intros Hk Hm Hm'.
  pose proof (conversion_branch_spec max_mark lo lotol hitol hi v) as Hb.
  rewrite conversion_by_branch in Hm, Hm'.
  rewrite (conversion_branch_affine k c max_mark v Hk) in Hm'.
  destruct (conversion_branch v (max_mark, lo, lotol, hitol, hi)); simpl in Hm, Hm'.
  - injection Hm as <-. injection Hm' as <-. reflexivity.
  - injection Hm as <-. injection Hm' as <-. reflexivity.
  - rewrite truediv_nonzero in Hm by lra.
    rewrite truediv_nonzero in Hm' by nra.
    injection Hm as <-. injection Hm' as <-. field. split; [lra|nra].
  - rewrite truediv_nonzero in Hm by lra.
    rewrite truediv_nonzero in Hm' by nra.
    injection Hm as <-. injection Hm' as <-. field. split; [lra|nra].
  - contradiction.
Qed.

(** The mark is proportional to the maximum mark. *)
Lemma conversion_scales_with_max_mark (s v m m' : Q) :
  conversion v (max_mark, lo, lotol, hitol, hi) = Ok m ->
  conversion v (s * max_mark, lo, lotol, hitol, hi) = Ok m' ->
  m' == s * m.
Proof using Type.
  intros Hm Hm'.
  pose proof (conversion_branch_spec max_mark lo lotol hitol hi v) as Hb.
  rewrite conversion_by_branch in Hm, Hm'.
  change (conversion_branch v (s * max_mark, lo, lotol, hitol, hi))
    with (conversion_branch v (max_mark, lo, lotol, hitol, hi)) in Hm'.
  destruct (conversion_branch v (max_mark, lo, lotol, hitol, hi)); simpl in Hm, Hm'.
  - injection Hm as <-. injection Hm' as <-. ring.
  - injection Hm as <-. injection Hm' as <-. reflexivity.
  - rewrite truediv_nonzero in Hm, Hm' by lra.
    injection Hm as <-. injection Hm' as <-. field. lra.
  - rewrite truediv_nonzero in Hm, Hm' by lra.
    injection Hm as <-. injection Hm' as <-. field. lra.
  - contradiction.
Qed.
End Units.

(** ** The marks of the report *)

(** Find an element in a list display. *)
Ltac list_member :=
  repeat first [apply list_elem_of_here | apply list_elem_of_further].

Lemma table_max_marks_positive (name : string) (params : CurveParams) :
  (name, params) ∈ params_table → valid_params params ∧ 0 < max_mark_of params.
Proof.
  intros Hin. unfold params_table in Hin. simpl in Hin.
  list_cases Hin; injection Hin as _ ->;
    unfold valid_params, max_mark_of, p1, p2, p3, p4, p5, p6, p7, p8; lra.
Qed.

Lemma mark_of_full_iff (v : Q) (p : CurveParams) :
  valid_params p → 0 < max_mark_of p →
  (mark_of v p == max_mark_of p ↔ in_plateau p v).
Proof.
  destruct p as [[[[max_mark lo] lotol] hitol] hi].
  intros (H1 & H2 & H3 & H4) Hpos. simpl in Hpos.
  apply (full_mark_iff_plateau max_mark lo lotol hitol hi H1 H2 H3 H4 v _ Hpos).
  apply conversion_mark_of.
Qed.

Section Marks.
Context `{Python}.

(** The raw measure and the mark the report holds under each name. *)
Lemma breakdown_entries (code : pystr) (name : string) (params : CurveParams) :
  (name, params) ∈ params_table →
  ∃ v, raw_measures (breakdown_of code) !! name = Some v ∧
       marks (breakdown_of code) !! name = Some (mark_of v params).
Proof.
  intros Hin. unfold params_table in Hin. simpl in Hin.
  unfold breakdown_of. cbn [raw_measures marks].
  list_cases Hin; injection Hin as -> ->; eexists; split; reflexivity.
Qed.

Lemma marks_in_range (code : pystr) (name : string) (params : CurveParams) :
  (name, params) ∈ params_table →
  ∃ m, marks (breakdown_of code) !! name = Some m ∧ 0 <= m ∧ m <= max_mark_of params.
Proof.
  intros Hin. destruct (breakdown_entries code name params Hin) as (v & _ & Hm).
  exists (mark_of v params). split; [exact Hm|].
  apply mark_of_range. apply (table_max_marks_positive name params Hin).
Qed.

Lemma perfect_score_iff (code : pystr) :
  total_mark (breakdown_of code) == 100 ↔
  ∀ name params, (name, params) ∈ params_table →
    ∃ v, raw_measures (breakdown_of code) !! name = Some v ∧ in_plateau params v.
Proof.
  destruct table_valid as (T1 & T2 & T3 & T4 & T5 & T6 & T7 & T8).
  pose proof (mark_of_range (avg_line_length_of code) p1 T1) as R1.
  pose proof (mark_of_range (comment_percentage_of code) p2 T2) as R2.
  pose proof (mark_of_range (indent_percentage_of code) p3 T3) as R3.
  pose proof (mark_of_range (blank_percentage_of code) p4 T4) as R4.
  pose proof (mark_of_range (embedded_space_percentage_of code) p5 T5) as R5.
  pose proof (mark_of_range (module_length_of code) p6 T6) as R6.
  pose proof (mark_of_range (reserved_words_count_of code) p7 T7) as R7.
  pose proof (mark_of_range (avg_identifier_length_of code) p8 T8) as R8.
  pose proof (mark_of_full_iff (avg_line_length_of code) p1 T1 ltac:(simpl; lra)) as F1.
  pose proof (mark_of_full_iff (comment_percentage_of code) p2 T2 ltac:(simpl; lra)) as F2.
  pose proof (mark_of_full_iff (indent_percentage_of code) p3 T3 ltac:(simpl; lra)) as F3.
  pose proof (mark_of_full_iff (blank_percentage_of code) p4 T4 ltac:(simpl; lra)) as F4.
  pose proof (mark_of_full_iff (embedded_space_percentage_of code) p5 T5 ltac:(simpl; lra))
    as F5.
  pose proof (mark_of_full_iff (module_length_of code) p6 T6 ltac:(simpl; lra)) as F6.
  pose proof (mark_of_full_iff (reserved_words_count_of code) p7 T7 ltac:(simpl; lra)) as F7.
  pose proof (mark_of_full_iff (avg_identifier_length_of code) p8 T8 ltac:(simpl; lra))
    as F8.
  unfold breakdown_of. cbn [total_mark raw_measures].
  change (max_mark_of p1) with 15 in *. change (max_mark_of p2) with 10 in *.
  change (max_mark_of p3) with 12 in *. change (max_mark_of p4) with 5 in *.
  change (max_mark_of p5) with 8 in *. change (max_mark_of p6) with 20 in *.
  change (max_mark_of p7) with 10 in *. change (max_mark_of p8) with 20 in *.
  split.
  - intros Htot name params Hin. unfold params_table in Hin. simpl in Hin.
    list_cases Hin; injection Hin as -> ->; eexists; (split; [reflexivity|]).
    + apply F1. lra.
    + apply F2. lra.
    + apply F3. lra.
    + apply F4. lra.
    + apply F5. lra.
    + apply F6. lra.
    + apply F7. lra.
    + apply F8. lra.
  - intros Hall.
    assert (Hget : ∀ name params v,
      (name, params) ∈ params_table →
      measure_dict (avg_line_length_of code) (comment_percentage_of code)
        (indent_percentage_of code) (blank_percentage_of code)
        (embedded_space_percentage_of code) (module_length_of code)
        (reserved_words_count_of code) (avg_identifier_length_of code) !! name = Some v →
      in_plateau params v).
    { intros name params v Hin Hv. destruct (Hall name params Hin) as (v' & Hv' & Hp).
      rewrite Hv in Hv'. injection Hv' as <-. exact Hp. }
    assert (In1 : in_plateau p1 (avg_line_length_of code)).
    { apply (Hget "avg_line_length"%string); [|reflexivity].
      unfold params_table. simpl. list_member. }
    assert (In2 : in_plateau p2 (comment_percentage_of code)).
    { apply (Hget "comment_percentage"%string); [|reflexivity].
      unfold params_table. simpl. list_member. }
    assert (In3 : in_plateau p3 (indent_percentage_of code)).
    { apply (Hget "indent_percentage"%string); [|reflexivity].
      unfold params_table. simpl. list_member. }
    assert (In4 : in_plateau p4 (blank_percentage_of code)).
    { apply (Hget "blank_percentage"%string); [|reflexivity].
      unfold params_table. simpl. list_member. }
    assert (In5 : in_plateau p5 (embedded_space_percentage_of code)).
    { apply (Hget "embedded_space_percentage"%string); [|reflexivity].
      unfold params_table. simpl. list_member. }
    assert (In6 : in_plateau p6 (module_length_of code)).
    { apply (Hget "module_length"%string); [|reflexivity].
      unfold params_table. simpl. list_member. }
    assert (In7 : in_plateau p7 (reserved_words_count_of code)).
    { apply (Hget "reserved_words_count"%string); [|reflexivity].
      unfold params_table. simpl. list_member. }
    assert (In8 : in_plateau p8 (avg_identifier_length_of code)).
    { apply (Hget "avg_identifier_length"%string); [|reflexivity].
      unfold params_table. simpl. list_member. }
    apply F1 in In1. apply F2 in In2. apply F3 in In3. apply F4 in In4.
    apply F5 in In5. apply F6 in In6. apply F7 in In7. apply F8 in In8.
    lra.
Qed.
End Marks.

(** ** Module length and the parser *)

Section ModuleLength.
Context `{Python}.

Lemma module_length_times_modules (code : pystr) :
  module_length_of code * num (count_function_defs code + 1)
  == num (len (non_blank_lines_of code)).
Proof.
  unfold module_length_of.
  pose proof (num_pos (count_function_defs code + 1) ltac:(lia)) as Hpos.
  field. lra.
Qed.

Lemma num_succ_ge_1 (n : nat) : 1 <= num (n + 1).
Proof. unfold num, Qle. simpl. lia. Qed.

Lemma module_length_le_non_blank (code : pystr) :
  module_length_of code <= num (len (non_blank_lines_of code)).
Proof.
  pose proof (module_length_times_modules code) as Heq.
  pose proof (num_succ_ge_1 (count_function_defs code)) as H1.
  pose proof (module_length_nonneg code) as H0.
  rewrite <- Heq. nra.
Qed.

(** At most five non-blank lines: the module length is at or below the
    lower bound of its curve. *)
Lemma short_text_no_module_mark (code : pystr) :
  (len (non_blank_lines_of code) ≤ 5)%nat → mark_of (module_length_of code) p6 == 0.
Proof.
  intros Hshort.
  pose proof (module_length_le_non_blank code) as Hle.
  pose proof (num_le _ _ Hshort) as H5. change (num 5) with 5 in H5.
  pose proof (conversion_mark_of (module_length_of code) p6) as Hm.
  unfold p6 in *.
  apply conversion_pieces in Hm as (P1 & _); lra.
Qed.

Lemma module_length_parse_failed (code : pystr) :
  parse code = None →
  module_length_of code == num (len (non_blank_lines_of code)).
Proof.
  intros Hfail. unfold module_length_of, count_function_defs. rewrite Hfail.
  change (num (0 + 1)) with 1. field.
Qed.
End ModuleLength.

(** The parser enters the report through [module_length] only. *)
Lemma parser_only_in_module_length (py py' : Python) (code : pystr) (name : string) :
  @tokenize py code = @tokenize py' code →
  (list_to_set (@kwlist py) : gset pystr) = list_to_set (@kwlist py') →
  name ≠ "module_length"%string →
  raw_measures (@breakdown_of py' code) !! name
  = raw_measures (@breakdown_of py code) !! name.
Proof.
  intros Htok Hkw Hname.
  destruct (decide (name ∈ measure_names)) as [Hin | Hout].
  - unfold measure_names in Hin.
    unfold breakdown_of. cbn [raw_measures].
    unfold comment_percentage_of, reserved_words_count_of, avg_identifier_length_of,
      identifiers_of, tokens_and_comment_lines.
    rewrite Htok, Hkw.
    list_cases Hin; subst name; try reflexivity. contradiction.
  - unfold breakdown_of. cbn [raw_measures].
    rewrite !(proj1 (not_elem_of_dom _ _)); [reflexivity | |];
      rewrite measure_dict_dom; rewrite elem_of_list_to_set; exact Hout.
Qed.

(** ** Comment lines and reserved words as sets *)

#[local] Set Warnings "-clear-no-such-hyp".

Lemma comment_lines_from (tokens : list TokenInfo) (acc : gset nat) :
  foldl add_comment_line acc tokens = comment_rows tokens ∪ acc.
Proof.
  revert acc. induction tokens as [|t tokens IH]; intros acc; simpl.
  - unfold comment_rows. simpl. set_solver.
  - rewrite IH. unfold add_comment_line, comment_rows.
    rewrite filter_cons. destruct (decide (tok_type t = COMMENT)); simpl; set_solver.
Qed.

Lemma comment_lines_are_rows (tokens : list TokenInfo) :
  foldl add_comment_line ∅ tokens = comment_rows tokens.
Proof. rewrite comment_lines_from. set_solver. Qed.

Lemma reserved_words_from (kw : list pystr) (tokens : list TokenInfo) (acc : gset pystr) :
  foldl (add_reserved_word (list_to_set kw)) acc tokens = keywords_used kw tokens ∪ acc.
Proof.
  revert acc. induction tokens as [|t tokens IH]; intros acc; simpl.
  - unfold keywords_used. simpl. set_solver.
  - rewrite IH. unfold add_reserved_word, keywords_used.
    rewrite (filter_cons (λ tok, tok_type tok = NAME)).
    destruct (decide (tok_type t = NAME)) as [Hn | Hn].
    + simpl. rewrite filter_cons.
      destruct (decide (tok_string t ∈ kw)) as [Hk | Hk].
      * rewrite decide_True by (split; [exact Hn | apply elem_of_list_to_set; exact Hk]).
        simpl. set_solver.
      * rewrite decide_False; [set_solver|].
        intros [_ Hk']. apply Hk. apply elem_of_list_to_set in Hk'. exact Hk'.
    + rewrite decide_False by (intros [Hn' _]; contradiction). reflexivity.
Qed.

Lemma reserved_words_are_keywords_used (kw : list pystr) (tokens : list TokenInfo) :
  foldl (add_reserved_word (list_to_set kw)) ∅ tokens = keywords_used kw tokens.
Proof. rewrite reserved_words_from. set_solver. Qed.

Lemma keywords_used_subset (kw : list pystr) (tokens : list TokenInfo) :
  keywords_used kw tokens ⊆ list_to_set kw.
Proof.
  intros s Hs. unfold keywords_used in Hs.
  apply elem_of_list_to_set in Hs. apply list_elem_of_filter in Hs as [Hk _].
  apply elem_of_list_to_set. exact Hk.
Qed.

Lemma size_list_to_set_le {A : Type} `{Countable A} (l : list A) :
  (size (list_to_set l : gset A) ≤ length l)%nat.
Proof.
  induction l as [|x l IH].
  - rewrite list_to_set_nil, size_empty. simpl. lia.
  - rewrite list_to_set_cons, size_union_alt, size_singleton.
    pose proof (subseteq_size (list_to_set l ∖ {[x]}) (list_to_set l : gset A)
                  ltac:(apply subseteq_difference_l; reflexivity)).
    simpl. lia.
Qed.

(** ** Lines *)

Lemma linebreak_not_CR (c : N) : is_linebreak c = false → (c =? 13)%N = false.
Proof.
  intros Hc. destruct (c =? 13)%N eqn:E; [|reflexivity].
  apply N.eqb_eq in E. subst c. discriminate Hc.
Qed.

(** A run of characters without a line boundary, then a line feed: one
    line. *)
Lemma splitlines_from_line (cur line rest : pystr) :
  Forall (λ c, is_linebreak c = false) line →
  splitlines_from cur (line ++ LF :: rest) = (rev cur ++ line) :: splitlines_from [] rest.
Proof.
  intros Hline. revert cur.
  induction Hline as [|c line Hc _ IH]; intros cur; simpl.
  - rewrite app_nil_r. reflexivity.
  - rewrite (linebreak_not_CR c Hc), Hc. rewrite IH. simpl.
    rewrite <- app_assoc. reflexivity.
Qed.

Lemma splitlines_from_last_line (cur line : pystr) :
  Forall (λ c, is_linebreak c = false) line →
  splitlines_from cur line
  = match rev cur ++ line with [] => [] | _ :: _ => [rev cur ++ line] end.
Proof.
  intros Hline. revert cur.
  induction Hline as [|c line Hc _ IH]; intros cur; simpl.
  - rewrite app_nil_r. destruct cur as [|x cur]; [reflexivity|].
    simpl. destruct (rev cur ++ [x]) eqn:E; [|reflexivity].
    apply app_eq_nil in E as [_ E]. discriminate E.
  - rewrite (linebreak_not_CR c Hc), Hc. rewrite IH. simpl.
    rewrite <- app_assoc. reflexivity.
Qed.

Lemma splitlines_join (lines : list pystr) :
  Forall (Forall (λ c, is_linebreak c = false)) lines →
  splitlines (concat (map (λ line, line ++ [LF]) lines)) = lines.
Proof.
  intros Hlines. unfold splitlines.
  induction Hlines as [|line lines Hline _ IH]; simpl; [reflexivity|].
  rewrite <- app_assoc. simpl. rewrite splitlines_from_line by exact Hline.
  simpl. rewrite IH. reflexivity.
Qed.

(** A last line that is not empty is the same line with or without a line
    feed after it. *)
Lemma splitlines_join_open (lines : list pystr) (line : pystr) :
  Forall (Forall (λ c, is_linebreak c = false)) lines →
  Forall (λ c, is_linebreak c = false) line →
  line ≠ [] →
  splitlines (concat (map (λ line, line ++ [LF]) lines) ++ line) = lines ++ [line].
Proof.
  intros Hlines Hline Hne. unfold splitlines.
  induction Hlines as [|l lines Hl _ IH]; simpl.
  - rewrite splitlines_from_last_line by exact Hline. simpl.
    destruct line; [contradiction|reflexivity].
  - rewrite <- !app_assoc. simpl. rewrite splitlines_from_line by exact Hl.
    simpl. rewrite IH. reflexivity.
Qed.

Lemma splitlines_from_crlf (cur s : pystr) :
  CR ∉ s → splitlines_from cur (crlf s) = splitlines_from cur s.
Proof.
  revert cur. induction s as [|c s IH]; intros cur Hcr; [reflexivity|].
  assert (Hc : c ≠ CR) by (intros ->; apply Hcr; apply list_elem_of_here).
  assert (Hs : CR ∉ s) by (intros Hin; apply Hcr; apply list_elem_of_further; exact Hin).
  simpl. destruct (c =? LF)%N eqn:E.
  - apply N.eqb_eq in E. subst c. simpl. rewrite IH by exact Hs. reflexivity.
  - simpl. destruct (c =? 13)%N eqn:E13.
    + apply N.eqb_eq in E13. contradiction.
    + destruct (is_linebreak c); rewrite IH by exact Hs; reflexivity.
Qed.

Lemma splitlines_crlf (code : pystr) :
  CR ∉ code → splitlines (crlf code) = splitlines code.
Proof. apply splitlines_from_crlf. Qed.

(** The four line-based measures are functions of the lines. *)
Lemma line_measures_of_lines (code code' : pystr) :
  splitlines code' = splitlines code →
  avg_line_length_of code' = avg_line_length_of code ∧
  indent_percentage_of code' = indent_percentage_of code ∧
  blank_percentage_of code' = blank_percentage_of code ∧
  embedded_space_percentage_of code' = embedded_space_percentage_of code.
Proof.
  intros Hlines.
  unfold avg_line_length_of, indent_percentage_of, blank_percentage_of,
    embedded_space_percentage_of, non_blank_lines_of.
  rewrite Hlines. repeat split.
Qed.

(** ** Blank and non-blank lines *)

Lemma blank_and_non_blank (lines : list pystr) :
  (len (filter (λ line, strip line = []) lines)
   + len (filter (λ line, strip line ≠ []) lines) = len lines)%nat.
Proof.
  unfold len. induction lines as [|line lines IH]; [reflexivity|].
  rewrite !filter_cons.
  destruct (decide (strip line = [])) as [Hb | Hb].
  - rewrite decide_False by (intros Hn; apply Hn; exact Hb). simpl. lia.
  - rewrite decide_True by exact Hb. simpl. lia.
Qed.

Lemma percentage_complement (a b n : nat) :
  (a + b = n)%nat → (0 < n)%nat → percentage a n + percentage b n == 100.
Proof.
  intros Hab Hn. unfold percentage.
  destruct (0 <? n)%nat eqn:E; [|apply Nat.ltb_ge in E; lia].
  pose proof (num_pos n Hn) as Hpos.
  assert (Hsum : num a + num b == num n).
  { subst n. unfold num. rewrite Nat2Z.inj_add, inject_Z_plus. reflexivity. }
  assert (Hq : num a / num n * 100 + num b / num n * 100
               == (num a + num b) / num n * 100) by (field; lra).
  rewrite Hq, Hsum. field. lra.
Qed.

Lemma non_blank_stripped_length (lines : list pystr) :
  (len (filter (λ line, strip line ≠ []) lines)
   ≤ sum_list (map (λ line, len (strip line)) (filter (λ line, strip line ≠ []) lines)))%nat.
Proof.
  unfold len. induction lines as [|line lines IH]; [reflexivity|].
  rewrite filter_cons. destruct (decide (strip line ≠ [])) as [Hn | _]; [|exact IH].
  simpl. destruct (strip line) as [|c s] eqn:E; [contradiction|]. simpl. lia.
Qed.

Lemma ratio_ge_1 (a n : nat) : (0 < n)%nat → (n ≤ a)%nat → 1 <= ratio (num a) n.
Proof.
  intros Hn Hna. unfold ratio.
  destruct (0 <? n)%nat eqn:E; [|apply Nat.ltb_ge in E; lia].
  apply Qle_shift_div_l; [apply num_pos; exact Hn|].
  pose proof (num_le n a Hna). lra.
Qed.

(** ** Spaces inside a stripped line *)

Lemma lstrip_head (s : pystr) :
  match lstrip s with [] => True | c :: _ => isspace c = false end.
Proof.
  induction s as [|c s IH]; simpl; [exact I|].
  destruct (isspace c) eqn:E; [exact IH|exact E].
Qed.

Lemma count_app (s t : pystr) (c : N) : count (s ++ t) c = (count s c + count t c)%nat.
Proof. induction s as [|x s IH]; simpl; [reflexivity|]. rewrite IH. lia. Qed.

Lemma count_rev (s : pystr) (c : N) : count (rev s) c = count s c.
Proof.
  induction s as [|x s IH]; simpl; [reflexivity|].
  rewrite count_app, IH. simpl. lia.
Qed.

(** A stripped line that is not empty ends in a character that is not
    white space, so fewer of its characters are spaces than it has. *)
Lemma spaces_lt_length (line : pystr) :
  strip line ≠ [] → (count (strip line) SPACE < len (strip line))%nat.
Proof.
  unfold strip, rstrip, len. intros Hne.
  pose proof (lstrip_head (rev (lstrip line))) as Hhead.
  destruct (lstrip (rev (lstrip line))) as [|c s]; [contradiction|].
  rewrite count_rev, length_rev. simpl.
  destruct (c =? SPACE)%N eqn:E.
  - apply N.eqb_eq in E. subst c. discriminate Hhead.
  - pose proof (count_le_len s SPACE). unfold len in *. simpl. lia.
Qed.

Lemma spaces_plus_lines_le_chars (lines : list pystr) :
  (sum_list (map (λ line, count (strip line) SPACE) (filter (λ line, strip line ≠ []) lines))
   + len (filter (λ line, strip line ≠ []) lines)
   ≤ sum_list (map (λ line, len (strip line)) (filter (λ line, strip line ≠ []) lines)))%nat.
Proof.
  unfold len. induction lines as [|line lines IH]; [reflexivity|].
  rewrite filter_cons. destruct (decide (strip line ≠ [])) as [Hn | _]; [|exact IH].
  simpl. pose proof (spaces_lt_length line Hn). unfold len in *. lia.
Qed.

Lemma percentage_lt_100 (a n : nat) : (a < n)%nat → percentage a n < 100.
Proof.
  intros Han. unfold percentage.
  destruct (0 <? n)%nat eqn:E; [|lra].
  apply Nat.ltb_lt in E. pose proof (num_pos n E) as Hpos.
  assert (Hlt : num a < num n) by (unfold num, Qlt; simpl; lia).
  assert (num a / num n < 1) by (apply Qlt_shift_div_r; lra).
  lra.
Qed.

Lemma embedded_space_percentage_lt_100 (code : pystr) :
  embedded_space_percentage_of code < 100.
Proof.
  unfold embedded_space_percentage_of, non_blank_lines_of.
  pose proof (spaces_plus_lines_le_chars (splitlines code)) as Hle.
  destruct (filter (λ line, strip line ≠ []) (splitlines code)) as [|line lines].
  - reflexivity.
  - apply percentage_lt_100. unfold len in *. simpl in Hle. simpl. lia.
Qed.

(** A line feed after a last character that is not a line boundary ends
    the last line and starts no new one. *)
Lemma splitlines_from_final_lf (n : nat) :
  ∀ (s cur : pystr) (c : N),
    (length s ≤ n)%nat → is_linebreak c = false →
    splitlines_from cur (s ++ [c] ++ [LF]) = splitlines_from cur (s ++ [c]).
Proof.
  induction n as [|n IH]; intros s cur c Hlen Hc.
  - destruct s as [|x s]; [|simpl in Hlen; lia].
    simpl. rewrite (linebreak_not_CR c Hc), Hc. reflexivity.
  - destruct s as [|x s].
    + simpl. rewrite (linebreak_not_CR c Hc), Hc. reflexivity.
    + simpl in Hlen. simpl. destruct (x =? 13)%N.
      * destruct s as [|y s]; simpl.
        -- assert (Hc10 : (c =? 10)%N = false).
           { destruct (c =? 10)%N eqn:E; [|reflexivity].
             apply N.eqb_eq in E. subst c. discriminate Hc. }
           rewrite Hc10. f_equal. apply (IH [] [] c); [simpl; lia|exact Hc].
        -- simpl in Hlen. destruct (y =? 10)%N.
           ++ f_equal. apply (IH s [] c); [lia|exact Hc].
           ++ f_equal. apply (IH (y :: s) [] c); [simpl; lia|exact Hc].
      * destruct (is_linebreak x).
        -- f_equal. apply (IH s [] c); [lia|exact Hc].
        -- apply (IH s (x :: cur) c); [lia|exact Hc].
Qed.

Lemma splitlines_final_lf (code : pystr) (c : N) :
  is_linebreak c = false →
  splitlines (code ++ [c] ++ [LF]) = splitlines (code ++ [c]).
Proof.
  intros Hc. apply (splitlines_from_final_lf (length code)); [lia|exact Hc].
Qed.

(** ** Rows of comments and keywords in use, element by element *)

Lemma elem_of_comment_rows (tokens : list TokenInfo) (row : nat) :
  row ∈ comment_rows tokens ↔
  ∃ tok, tok ∈ tokens ∧ tok_type tok = COMMENT ∧ fst (tok_start tok) = row.
Proof.
  unfold comment_rows. rewrite elem_of_list_to_set, list_elem_of_In, in_map_iff.
  split.
  - intros (tok & Hrow & Hin). apply list_elem_of_In, list_elem_of_filter in Hin as [Hty Hin].
    exists tok. auto.
  - intros (tok & Hin & Hty & Hrow). exists tok. split; [exact Hrow|].
    apply list_elem_of_In, list_elem_of_filter. auto.
Qed.

Lemma comment_rows_size (tokens : list TokenInfo) :
  (size (comment_rows tokens) ≤ length (filter (λ tok, tok_type tok = COMMENT) tokens))%nat.
Proof.
  unfold comment_rows. etrans; [apply size_list_to_set_le|].
  rewrite length_map. reflexivity.
Qed.

Lemma elem_of_keywords_used (kw : list pystr) (tokens : list TokenInfo) (s : pystr) :
  s ∈ keywords_used kw tokens ↔
  s ∈ kw ∧ ∃ tok, tok ∈ tokens ∧ tok_type tok = NAME ∧ tok_string tok = s.
Proof.
  unfold keywords_used. rewrite elem_of_list_to_set, list_elem_of_filter.
  rewrite (list_elem_of_In (map _ _)), in_map_iff.
  split.
  - intros (Hkw & tok & Hs & Hin).
    apply list_elem_of_In, list_elem_of_filter in Hin as [Hty Hin].
    split; [exact Hkw|]. exists tok. auto.
  - intros (Hkw & tok & Hin & Hty & Hs). split; [exact Hkw|].
    exists tok. split; [exact Hs|]. apply list_elem_of_In, list_elem_of_filter. auto.
Qed.

Lemma keywords_used_size (kw : list pystr) (tokens : list TokenInfo) :
  (size (keywords_used kw tokens) ≤ length kw)%nat.
Proof.
  etrans; [apply subseteq_size, keywords_used_subset|]. apply size_list_to_set_le.
Qed.

(** ** Line-based entries of two reports *)

Lemma line_based_of_lines (py py' : Python) (code code' : pystr) (name : string) :
  splitlines code' = splitlines code →
  name ∈ line_based_names →
  raw_measures (@breakdown_of py' code') !! name
  = raw_measures (@breakdown_of py code) !! name.
Proof.
  intros Hlines Hname.
  destruct (line_measures_of_lines code code' Hlines) as (E1 & E3 & E4 & E5).
  unfold line_based_names in Hname.
  list_cases Hname; subst name.
  - transitivity (Some (avg_line_length_of code')); [reflexivity|]. rewrite E1. reflexivity.
  - transitivity (Some (indent_percentage_of code')); [reflexivity|]. rewrite E3. reflexivity.
  - transitivity (Some (blank_percentage_of code')); [reflexivity|]. rewrite E4. reflexivity.
  - transitivity (Some (embedded_space_percentage_of code')); [reflexivity|].
    rewrite E5. reflexivity.
Qed.

(** ** Further properties of the curve *)

(** X1.  Under the invariant, of two values the larger earns at least as
    much while it is not past the plateau, and at most as much once the
    smaller has reached the plateau: the curve rises, then falls. *)
Theorem X1_marks_rise_then_fall (max_mark lo lotol hitol hi v w mv mw : Q) :
  valid_params (max_mark, lo, lotol, hitol, hi) ->
  conversion v (max_mark, lo, lotol, hitol, hi) = Ok mv ->
  conversion w (max_mark, lo, lotol, hitol, hi) = Ok mw ->
  v <= w ->
  (w <= hitol -> mv <= mw) /\ (lotol <= v -> mw <= mv).
Proof.
  intros (H1 & H2 & H3 & H4) Hv Hw Hvw. split; intros Hside.
  - apply (conversion_rises max_mark lo lotol hitol hi H1 H2 H3 H4 v w); assumption.
  - apply (conversion_falls max_mark lo lotol hitol hi H1 H2 H3 H4 v w); assumption.
Qed.

Lemma X1_witness :
  valid_params (15, 40, 50, 70, 90) /\ 15 * (45 - 40) / (50 - 40) <= 15.
Proof.
  assert (Hp : valid_params (15, 40, 50, 70, 90)) by (unfold valid_params; lra).
  split; [exact Hp|].
  destruct (X1_marks_rise_then_fall 15 40 50 70 90 45 60 _ _ Hp eq_refl eq_refl
              ltac:(lra)) as [Hrise _].
  apply Hrise. lra.
Defined.

(** X2.  Under the invariant and with a positive maximum mark, the mark
    is the maximum mark exactly when the value lies on the plateau
    [lotol <= value <= hitol]. *)
Theorem X2_full_mark_only_on_plateau (max_mark lo lotol hitol hi v mark : Q) :
  valid_params (max_mark, lo, lotol, hitol, hi) ->
  0 < max_mark ->
  conversion v (max_mark, lo, lotol, hitol, hi) = Ok mark ->
  (mark == max_mark <-> lotol <= v <= hitol).
Proof.
  intros (H1 & H2 & H3 & H4) Hpos Hm.
  apply (full_mark_iff_plateau max_mark lo lotol hitol hi H1 H2 H3 H4 v mark Hpos Hm).
Qed.

Lemma X2_witness :
  valid_params (15, 40, 50, 70, 90) /\ (15 == 15 <-> 50 <= 60 <= 70).
Proof.
  assert (Hp : valid_params (15, 40, 50, 70, 90)) by (unfold valid_params; lra).
  split; [exact Hp|].
  apply (X2_full_mark_only_on_plateau 15 40 50 70 90 60 15 Hp ltac:(lra) eq_refl).
Defined.

(** X3.  When both ramps have a width and the maximum mark is positive,
    the mark is 0 exactly when the value is at or below [lo] or at or
    above [hi]. *)
Theorem X3_zero_mark_only_outside (max_mark lo lotol hitol hi v mark : Q) :
  lo < lotol -> lotol <= hitol -> hitol < hi -> 0 < max_mark ->
  conversion v (max_mark, lo, lotol, hitol, hi) = Ok mark ->
  (mark == 0 <-> v <= lo \/ hi <= v).
Proof.
  intros H1 H2 H3 Hpos Hm.
  apply (zero_mark_iff_outside max_mark lo lotol hitol hi H1 H2 H3 ltac:(lra) v mark
           Hpos Hm).
Qed.

Lemma X3_witness :
  15 * (40 - 40) / (50 - 40) == 0 <-> 40 <= 40 \/ 90 <= 40.
Proof.
  apply (X3_zero_mark_only_outside 15 40 50 70 90 40 _
           ltac:(lra) ltac:(lra) ltac:(lra) ltac:(lra) eq_refl).
Defined.

(** X4.  When both ramps have a width and the maximum mark is not
    negative, between two values [v <= w] the mark rises by at most
    [max_mark * (w - v) / (lotol - lo)] and falls by at most
    [max_mark * (w - v) / (hi - hitol)]: the slopes of the two ramps bound
    the change everywhere. *)
Theorem X4_mark_change_is_bounded (max_mark lo lotol hitol hi v w mv mw : Q) :
  lo < lotol -> lotol <= hitol -> hitol < hi -> 0 <= max_mark ->
  conversion v (max_mark, lo, lotol, hitol, hi) = Ok mv ->
  conversion w (max_mark, lo, lotol, hitol, hi) = Ok mw ->
  v <= w ->
  mw - mv <= max_mark * (w - v) / (lotol - lo) /\
  mv - mw <= max_mark * (w - v) / (hi - hitol).
Proof.
  intros H1 H2 H3 H4 Hv Hw Hvw.
  destruct (conversion_slopes max_mark lo lotol hitol hi H1 H2 H3 H4 v w mv mw Hv Hw Hvw)
    as [Hup Hdown].
  split; apply Qle_shift_div_l; try lra.
Qed.

Lemma X4_witness :
  15 - 15 * (45 - 40) / (50 - 40) <= 15 * (60 - 45) / (50 - 40) /\
  15 * (45 - 40) / (50 - 40) - 15 <= 15 * (60 - 45) / (90 - 70).
Proof.
  apply (X4_mark_change_is_bounded 15 40 50 70 90 45 60 _ _
           ltac:(lra) ltac:(lra) ltac:(lra) ltac:(lra) eq_refl eq_refl ltac:(lra)).
Defined.

(** X5.  The mark does not depend on the unit of the measure: when the
    value and the four bounds go through the same change
    [x -> k * x + c] with [k > 0], the mark is the same. *)
Theorem X5_mark_is_unit_free (max_mark lo lotol hitol hi k c v m m' : Q) :
  0 < k ->
  conversion v (max_mark, lo, lotol, hitol, hi) = Ok m ->
  conversion (k * v + c)
    (max_mark, k * lo + c, k * lotol + c, k * hitol + c, k * hi + c) = Ok m' ->
  m' == m.
Proof.
  intros Hk Hm Hm'.
  apply (conversion_affine max_mark lo lotol hitol hi k c v m m' Hk Hm Hm').
Qed.

Lemma X5_witness :
  10 * ((1 # 100) * 7 + 0 - ((1 # 100) * 5 + 0))
     / ((1 # 100) * 10 + 0 - ((1 # 100) * 5 + 0))
  == 10 * (7 - 5) / (10 - 5).
Proof.
  apply (X5_mark_is_unit_free 10 5 10 20 30 (1 # 100) 0 7 _ _
           ltac:(lra) eq_refl eq_refl).
Defined.

(** X6.  The mark is proportional to the maximum mark: with [s * max_mark]
    in place of [max_mark] the mark is [s] times as large. *)
Theorem X6_mark_proportional_to_max_mark (max_mark lo lotol hitol hi s v m m' : Q) :
  conversion v (max_mark, lo, lotol, hitol, hi) = Ok m ->
  conversion v (s * max_mark, lo, lotol, hitol, hi) = Ok m' ->
  m' == s * m.
Proof.
  apply conversion_scales_with_max_mark.
Qed.

Lemma X6_witness :
  2 * 10 * (7 - 5) / (10 - 5) == 2 * (10 * (7 - 5) / (10 - 5)).
Proof.
  apply (X6_mark_proportional_to_max_mark 10 5 10 20 30 2 7 _ _ eq_refl eq_refl).
Defined.

(** ** Further properties of the report *)

(** X7.  For every text, the report holds a mark under each of the eight
    names, and each mark lies between 0 and the maximum mark of its
    measure. *)
Theorem X7_each_mark_in_its_range `{Python} (code : pystr) :
  ∃ b,
    analyze_style code = Ok b ∧
    ∀ name params, (name, params) ∈ params_table →
      ∃ m, marks b !! name = Some m ∧ 0 <= m ∧ m <= max_mark_of params.
Proof.
  exists (breakdown_of code). split; [apply analyze_style_breakdown|].
  apply marks_in_range.
Qed.

(** X8.  For every text, the total mark is 100 exactly when each of the
    eight raw measures lies on the plateau of its curve. *)
Theorem X8_perfect_score_needs_every_plateau `{Python} (code : pystr) :
  ∃ b,
    analyze_style code = Ok b ∧
    (total_mark b == 100 ↔
     ∀ name params, (name, params) ∈ params_table →
       ∃ v, raw_measures b !! name = Some v ∧ in_plateau params v).
Proof.
  exists (breakdown_of code). split; [apply analyze_style_breakdown|].
  apply perfect_score_iff.
Qed.

(** X9.  When parsing the text fails, [analyze_style] still returns a
    report; its [module_length] is the number of non-blank lines, and every
    other raw measure is what it is with any parser ([py']) under the same
    tokenizer and keywords. *)
Theorem X9_failed_parse_counts_no_function (py py' : Python) (code : pystr) :
  @parse py code = None →
  @tokenize py code = @tokenize py' code →
  (list_to_set (@kwlist py) : gset pystr) = list_to_set (@kwlist py') →
  ∃ b,
    @analyze_style py code = Ok b ∧
    (∃ x, raw_measures b !! "module_length"%string = Some x ∧
          x == num (len (non_blank_lines_of code))) ∧
    (∀ b' name, @analyze_style py' code = Ok b' → name ≠ "module_length"%string →
                raw_measures b' !! name = raw_measures b !! name).
Proof.
  intros Hfail Htok Hkw. exists (@breakdown_of py code).
  split; [apply analyze_style_breakdown|]. split.
  - exists (@module_length_of py code). split.
    + unfold breakdown_of. cbn [raw_measures]. apply measure_dict_lookup.
    + apply module_length_parse_failed. exact Hfail.
  - intros b' name Hb' Hname. rewrite analyze_style_breakdown in Hb'.
    injection Hb' as <-. apply parser_only_in_module_length; assumption.
Qed.

Lemma X9_witness :
  ∃ b,
    @analyze_style parserless_python text_lambda = Ok b ∧
    (∃ x, raw_measures b !! "module_length"%string = Some x ∧
          x == num (len (non_blank_lines_of text_lambda))) ∧
    (∀ b' name, @analyze_style example_python text_lambda = Ok b' →
                name ≠ "module_length"%string →
                raw_measures b' !! name = raw_measures b !! name).
Proof.
  apply (X9_failed_parse_counts_no_function parserless_python example_python text_lambda
           eq_refl eq_refl eq_refl).
Defined.

(** X10.  For every text, [module_length] times the number of modules
    (function definitions found, plus one) is the number of non-blank
    lines; so [module_length] is at most the number of non-blank lines. *)
Theorem X10_module_length_is_lines_per_module `{Python} (code : pystr) :
  ∃ b x,
    analyze_style code = Ok b ∧
    raw_measures b !! "module_length"%string = Some x ∧
    x * num (count_function_defs code + 1) == num (len (non_blank_lines_of code)) ∧
    x <= num (len (non_blank_lines_of code)).
Proof.
  exists (breakdown_of code), (module_length_of code).
  split; [apply analyze_style_breakdown|]. split.
  - unfold breakdown_of. cbn [raw_measures]. apply measure_dict_lookup.
  - split; [apply module_length_times_modules | apply module_length_le_non_blank].
Qed.

(** X11.  A text with at most five non-blank lines earns no mark for
    module length, whatever it defines. *)
Theorem X11_short_text_no_module_mark `{Python} (code : pystr) :
  (len (non_blank_lines_of code) ≤ 5)%nat →
  ∃ b m,
    analyze_style code = Ok b ∧
    marks b !! "module_length"%string = Some m ∧ m == 0.
Proof.
  intros Hshort. exists (breakdown_of code), (mark_of (module_length_of code) p6).
  split; [apply analyze_style_breakdown|]. split.
  - unfold breakdown_of. cbn [marks]. apply measure_dict_lookup.
  - apply short_text_no_module_mark. exact Hshort.
Qed.

Lemma X11_witness :
  ∃ b m,
    @analyze_style example_python text_lambda = Ok b ∧
    marks b !! "module_length"%string = Some m ∧ m == 0.
Proof.
  apply (@X11_short_text_no_module_mark example_python text_lambda).
  vm_compute. lia.
Defined.

(** X12.  When the text tokenizes, [comment_percentage] is computed from
    the set of rows on which some COMMENT token starts: a row counts once,
    however many COMMENT tokens start on it. *)
Theorem X12_comment_row_counts_once `{Python} (code : pystr) (tokens : list TokenInfo) :
  tokenize code = Some tokens →
  ∃ (rows : gset nat) b x,
    (∀ row, row ∈ rows ↔
            ∃ tok, tok ∈ tokens ∧ tok_type tok = COMMENT ∧ fst (tok_start tok) = row) ∧
    (size rows ≤ length (filter (λ tok, tok_type tok = COMMENT) tokens))%nat ∧
    analyze_style code = Ok b ∧
    raw_measures b !! "comment_percentage"%string = Some x ∧
    x = percentage (size rows) (len (splitlines code)).
Proof.
  intros Htok. exists (comment_rows tokens), (breakdown_of code), (comment_percentage_of code).
  split; [apply elem_of_comment_rows|].
  split; [apply comment_rows_size|].
  split; [apply analyze_style_breakdown|]. split.
  - unfold breakdown_of. cbn [raw_measures]. apply measure_dict_lookup.
  - unfold comment_percentage_of, tokens_and_comment_lines. rewrite Htok. cbn [snd].
    rewrite comment_lines_are_rows. reflexivity.
Qed.

(** X13.  For every text, [reserved_words_count] is the number of
    distinct strings that are in [kwlist] and are the string of some NAME
    token; it is at most the length of [kwlist]. *)
Theorem X13_reserved_words_are_keywords_in_use `{Python} (code : pystr) :
  ∃ (used : gset pystr) b x,
    (∀ s, s ∈ used ↔
          s ∈ kwlist ∧
          ∃ tok, tok ∈ fst (tokens_and_comment_lines code) ∧
                 tok_type tok = NAME ∧ tok_string tok = s) ∧
    analyze_style code = Ok b ∧
    raw_measures b !! "reserved_words_count"%string = Some x ∧
    x = num (size used) ∧ x <= num (len kwlist).
Proof.
  exists (keywords_used kwlist (fst (tokens_and_comment_lines code))),
    (breakdown_of code), (reserved_words_count_of code).
  split; [apply elem_of_keywords_used|].
  split; [apply analyze_style_breakdown|]. split.
  - unfold breakdown_of. cbn [raw_measures]. apply measure_dict_lookup.
  - unfold reserved_words_count_of. rewrite reserved_words_are_keywords_used.
    split; [reflexivity|]. apply num_le. apply keywords_used_size.
Qed.

(** X14.  For a text with a non-blank line, [avg_line_length] is at least
    1. *)
Theorem X14_avg_line_length_at_least_one `{Python} (code : pystr) :
  non_blank_lines_of code ≠ [] →
  ∃ b x,
    analyze_style code = Ok b ∧
    raw_measures b !! "avg_line_length"%string = Some x ∧ 1 <= x.
Proof.
  intros Hne. exists (breakdown_of code), (avg_line_length_of code).
  split; [apply analyze_style_breakdown|]. split.
  - unfold breakdown_of. cbn [raw_measures]. apply measure_dict_lookup.
  - unfold avg_line_length_of. apply ratio_ge_1.
    + destruct (non_blank_lines_of code); [contradiction|]. simpl. lia.
    + apply non_blank_stripped_length.
Qed.

(** X15.  For a text with at least one line, [blank_percentage] and the
    percentage of non-blank lines add up to 100: every line is blank or
    non-blank, never both. *)
Theorem X15_blank_and_non_blank_share `{Python} (code : pystr) :
  splitlines code ≠ [] →
  ∃ b x,
    analyze_style code = Ok b ∧
    raw_measures b !! "blank_percentage"%string = Some x ∧
    x + percentage (len (non_blank_lines_of code)) (len (splitlines code)) == 100.
Proof.
  intros Hne. exists (breakdown_of code), (blank_percentage_of code).
  split; [apply analyze_style_breakdown|]. split.
  - unfold breakdown_of. cbn [raw_measures]. apply measure_dict_lookup.
  - unfold blank_percentage_of, non_blank_lines_of. apply percentage_complement.
    + apply blank_and_non_blank.
    + destruct (splitlines code); [contradiction|]. simpl. lia.
Qed.

(** X16.  For every text, [embedded_space_percentage] is below 100: a
    stripped line ends in a character that is not a space. *)
Theorem X16_embedded_spaces_below_100 `{Python} (code : pystr) :
  ∃ b x,
    analyze_style code = Ok b ∧
    raw_measures b !! "embedded_space_percentage"%string = Some x ∧ x < 100.
Proof.
  exists (breakdown_of code), (embedded_space_percentage_of code).
  split; [apply analyze_style_breakdown|]. split.
  - unfold breakdown_of. cbn [raw_measures]. apply measure_dict_lookup.
  - apply embedded_space_percentage_lt_100.
Qed.

(** X17.  For a text without carriage returns, turning every line feed
    into carriage return, line feed leaves the four line-based raw
    measures as they are. *)
Theorem X17_crlf_keeps_line_measures (py py' : Python) (code : pystr) :
  CR ∉ code →
  ∃ b b',
    @analyze_style py code = Ok b ∧
    @analyze_style py' (crlf code) = Ok b' ∧
    ∀ name, name ∈ line_based_names →
            raw_measures b' !! name = raw_measures b !! name.
Proof.
  intros Hcr. exists (@breakdown_of py code), (@breakdown_of py' (crlf code)).
  split; [apply analyze_style_breakdown|].
  split; [apply analyze_style_breakdown|].
  intros name Hname. apply line_based_of_lines; [|exact Hname].
  apply splitlines_crlf. exact Hcr.
Qed.

(** X18.  A line feed added after a last character that is not a line
    boundary adds no line: the four line-based raw measures stay as they
    are. *)
Theorem X18_final_line_feed_adds_no_line (py py' : Python) (code : pystr) (c : N) :
  is_linebreak c = false →
  ∃ b b',
    @analyze_style py (code ++ [c]) = Ok b ∧
    @analyze_style py' (code ++ [c] ++ [LF]) = Ok b' ∧
    ∀ name, name ∈ line_based_names →
            raw_measures b' !! name = raw_measures b !! name.
Proof.
  intros Hc.
  exists (@breakdown_of py (code ++ [c])), (@breakdown_of py' (code ++ [c] ++ [LF])).
  split; [apply analyze_style_breakdown|].
  split; [apply analyze_style_breakdown|].
  intros name Hname. apply line_based_of_lines; [|exact Hname].
  apply splitlines_final_lf. exact Hc.
Qed.

(** X19.  Lines that hold no line boundary, each followed by a line feed,
    are split into those lines again; a last line that is not empty needs
    no line feed after it. *)
Theorem X19_splitlines_of_joined_lines (lines : list pystr) (line : pystr) :
  Forall (Forall (λ c, is_linebreak c = false)) lines →
  Forall (λ c, is_linebreak c = false) line →
  line ≠ [] →
  splitlines (concat (map (λ l, l ++ [LF]) lines)) = lines ∧
  splitlines (concat (map (λ l, l ++ [LF]) lines) ++ line) = lines ++ [line].
Proof.
  intros Hlines Hline Hne. split.
  - apply splitlines_join. exact Hlines.
  - apply splitlines_join_open; assumption.
Qed.

(** ** The further properties at concrete inputs *)

Lemma X12_witness :
  ∃ tokens,
    @tokenize example_python text_lambda = Some tokens ∧
    ∃ (rows : gset nat) b x,
      (∀ row, row ∈ rows ↔
              ∃ tok, tok ∈ tokens ∧ tok_type tok = COMMENT ∧ fst (tok_start tok) = row) ∧
      (size rows ≤ length (filter (λ tok, tok_type tok = COMMENT) tokens))%nat ∧
      @analyze_style example_python text_lambda = Ok b ∧
      raw_measures b !! "comment_percentage"%string = Some x ∧
      x = percentage (size rows) (len (splitlines text_lambda)).
Proof.
  eexists. split; [reflexivity|].
  apply (@X12_comment_row_counts_once example_python text_lambda _ eq_refl).
Defined.

Lemma X14_witness :
  ∃ b x,
    @analyze_style example_python text_assign = Ok b ∧
    raw_measures b !! "avg_line_length"%string = Some x ∧ 1 <= x.
Proof.
  apply (@X14_avg_line_length_at_least_one example_python text_assign).
  vm_compute. discriminate.
Defined.

Lemma X15_witness :
  ∃ b x,
    @analyze_style example_python text_assign = Ok b ∧
    raw_measures b !! "blank_percentage"%string = Some x ∧
    x + percentage (len (non_blank_lines_of text_assign)) (len (splitlines text_assign))
    == 100.
Proof.
  apply (@X15_blank_and_non_blank_share example_python text_assign).
  vm_compute. discriminate.
Defined.

Lemma X17_witness :
  ∃ b b',
    @analyze_style example_python text_lambda = Ok b ∧
    @analyze_style example_python (crlf text_lambda) = Ok b' ∧
    ∀ name, name ∈ line_based_names →
            raw_measures b' !! name = raw_measures b !! name.
Proof.
  apply (X17_crlf_keeps_line_measures example_python example_python text_lambda).
  apply (bool_decide_unpack _). vm_compute. exact I.
Defined.

Lemma X18_witness :
  ∃ b b',
    @analyze_style example_python (of_ascii "x = " ++ [49%N]) = Ok b ∧
    @analyze_style example_python (of_ascii "x = " ++ [49%N] ++ [LF]) = Ok b' ∧
    ∀ name, name ∈ line_based_names →
            raw_measures b' !! name = raw_measures b !! name.
Proof.
  apply (X18_final_line_feed_adds_no_line example_python example_python
           (of_ascii "x = ") 49%N eq_refl).
Defined.

Lemma X19_witness :
  splitlines (concat (map (λ l, l ++ [LF]) [of_ascii "a b"; []])) = [of_ascii "a b"; []] ∧
  splitlines (concat (map (λ l, l ++ [LF]) [of_ascii "a b"; []]) ++ of_ascii "c")
  = [of_ascii "a b"; []] ++ [of_ascii "c"].
Proof.
  apply (X19_splitlines_of_joined_lines [of_ascii "a b"; []] (of_ascii "c")).
  - repeat constructor.
  - repeat constructor.
  - discriminate.
Defined.
